(** * Scroll-driven camera/particle morphing and fade compositing

    A shallow embedding of the numeric core of the page script
    ([src/unnamed/part_000]) and of the overlay module
    ([src/top-glb-loader.js]).

    JavaScript numbers are modelled by exact rationals ([Q]); rounding of
    binary64 values and of the [Float32Array] particle buffer is not
    modelled.  What is proved on this model are values, ranges, thresholds
    and identities, which the binary64 results follow up to rounding; the
    order of two computed results that differ by less than a rounding error
    is not something the model decides, and where such an order matters the
    expression is run on binary64 numbers ([Binary64]).  A quotient whose denominator is not a literal goes through
    [jsdiv], which has no value when the denominator is zero (JavaScript
    would continue with [Infinity] or [NaN], neither of which is a
    rational); functions that contain such a quotient run in the [option]
    monad.  The rendering library (three.js) is represented by the few
    operations the scripts call: [MathUtils.lerp], [Vector3.lerpVectors],
    [Object3D.lookAt], [Box3.getSize] (its result is an input). *)

From Stdlib Require Import QArith Qminmax Qabs Lqa String ZArith Bool Floats.
From stdpp Require Import base option list.

Local Open Scope Q_scope.

(** ** JavaScript number operations *)

Module JS.

(** [a < b] *)
Definition lt (a b : Q) : bool :=
  match a ?= b with Lt => true | _ => false end.

(** [a > b] *)
Definition gt (a b : Q) : bool := lt b a.

(** [a <= b] *)
Definition le (a b : Q) : bool :=
  match a ?= b with Gt => false | _ => true end.

(** [a >= b] *)
Definition ge (a b : Q) : bool := le b a.

(** [a / b] for a denominator that is not a literal. *)
Definition jsdiv (a b : Q) : option Q :=
  if Qeq_bool b 0 then None else Some (a / b).

(** [s1 === s2] on strings. *)
Definition streq (s1 s2 : string) : bool := String.eqb s1 s2.

End JS.

(** ** three.js: the operations the scripts use *)

Record Vector3 := V3 { vx : Q; vy : Q; vz : Q }.

Module MathUtils.

(** [MathUtils.lerp(x, y, t) = (1 - t) * x + t * y]. *)
Definition lerp (x y t : Q) : Q := (1 - t) * x + t * y.

End MathUtils.

(** [target.lerpVectors(v1, v2, alpha)]: componentwise
    [v1 + (v2 - v1) * alpha]. *)
Definition lerpVectors (v1 v2 : Vector3) (alpha : Q) : Vector3 :=
  V3 (vx v1 + (vx v2 - vx v1) * alpha)
     (vy v1 + (vy v2 - vy v1) * alpha)
     (vz v1 + (vz v2 - vz v1) * alpha).

(** Componentwise equality of vectors as rational numbers. *)
Definition veq (a b : Vector3) : Prop :=
  vx a == vx b /\ vy a == vy b /\ vz a == vz b.

(** A camera: where it stands and the point [lookAt] last turned it to,
    if it was called. *)
Record Camera := mkCamera { position : Vector3; lookTarget : option Vector3 }.

(** [camera.lookAt(x, y, z)]. *)
Definition lookAt (c : Camera) (x y z : Q) : Camera :=
  mkCamera (position c) (Some (V3 x y z)).

(** [element.getBoundingClientRect()]. *)
Record DOMRect := mkRect { left : Q; top : Q; width : Q; height : Q }.

(** Reading slot [j] of a typed array.  Every buffer of the page script
    has [particleCount * 3] slots, so the default is never read there. *)
Definition rd (l : list Q) (j : nat) : Q := default 0 (l !! j).

(** ** The page script ([src/unnamed/part_000]) *)

Module Main.

(** *** The header overlay kept in [topGLBState] (lines 33-118) *)

Record Model := mkModel { scale : Q; visible : bool; rotation_y : Q }.

Record TopCamera := mkTopCamera { fov : Q; aspect : Q; position_z : Q }.

Record Config := mkConfig { fit : string; fitAmount : Q }.

(** [renderer] holds the size the overlay renderer draws at;
    [canvasOpacity] is [canvasEl.style.opacity]; [canvasDisplayed] is
    whether the canvas element is displayed (no function of this script
    writes it); [scrollGetter] receives the script's current
    [scrollProgress]. *)
Record TopGLBState := mkTop {
  tcamera : option TopCamera;
  renderer : option (Q * Q);
  model : option Model;
  headerEl : bool;
  canvasOpacity : Q;
  canvasDisplayed : bool;
  config : Config;
  scrollGetter : Q -> Q;
  headerSpin : Q }.

Definition initialTop : TopGLBState :=
  mkTop None None None false 1 true (mkConfig "height" 0.55) (fun _ => 0) 0.

(** [setTopGLBScrollProgressGetter(() => scrollProgress)] (line 261). *)
Definition setTopGLBScrollProgressGetter (g : Q -> Q) (t : TopGLBState)
  : TopGLBState :=
  mkTop (tcamera t) (renderer t) (model t) (headerEl t) (canvasOpacity t)
        (canvasDisplayed t) (config t) g (headerSpin t).

(** [setTopGLBHeaderSpin] (lines 77-79). *)
Definition setTopGLBHeaderSpin (spin : Q) (t : TopGLBState) : TopGLBState :=
  mkTop (tcamera t) (renderer t) (model t) (headerEl t) (canvasOpacity t)
        (canvasDisplayed t) (config t) (scrollGetter t) spin.

Section Layout.

(** [Math.tan(fovDegrees * (Math.PI / 180) / 2)], which is not a
    rational function of the field of view. *)
Variable tanHalfFov : Q -> Q.

(** [updateTopGLBHeaderCanvasLayout] (lines 81-99).  A missing camera
    or model makes the source throw and gives no state here. *)
Definition updateTopGLBHeaderCanvasLayout (rect : DOMRect)
  (t : TopGLBState) : option TopGLBState :=
  match renderer t, headerEl t with
  | Some _, true =>
      cam ← tcamera t;
      asp ← JS.jsdiv (width rect) (height rect);
      m ← model t;
      reqScale ←
        (if JS.streq (fit (config t)) "height" then
           let h := 2 * tanHalfFov (fov cam) * position_z cam in
           JS.jsdiv (height rect * fitAmount (config t)) h
         else
           JS.jsdiv (width rect * fitAmount (config t)) asp);
      Some (mkTop (Some (mkTopCamera (fov cam) asp (position_z cam)))
                  (Some (width rect, height rect))
                  (Some (mkModel reqScale (visible m) (rotation_y m)))
                  (headerEl t) (canvasOpacity t) (canvasDisplayed t)
                  (config t) (scrollGetter t) (headerSpin t))
  | _, _ => Some t
  end.

End Layout.

(** The overlay opacity computed by [updateTopGLB] (line 105). *)
Definition overlayOpacity (scroll showAt fullAt : Q) : option Q :=
  q ← JS.jsdiv (scroll - showAt) (fullAt - showAt);
  Some (Qmax 0 q).

(** [updateTopGLB({ showAt, fullAt })] (lines 101-113); [now] is
    [performance.now()].  The constant [progress] of line 104 is computed
    and never read. *)
Definition updateTopGLB (now scrollProgress showAt fullAt : Q)
  (t : TopGLBState) : option TopGLBState :=
  match model t with
  | None => Some t
  | Some m =>
      let scroll := scrollGetter t scrollProgress in
      let progress := (q ← JS.jsdiv scroll fullAt; Some (Qmin q 1)) in
      opacity ← overlayOpacity scroll showAt fullAt;
      let vis := JS.gt opacity 0 in
      let rot := if vis then headerSpin t * now / 1000 else rotation_y m in
      Some (mkTop (tcamera t) (renderer t)
                  (Some (mkModel (scale m) vis rot))
                  (headerEl t)
                  (match renderer t with
                   | Some _ => opacity
                   | None => canvasOpacity t
                   end)
                  (canvasDisplayed t) (config t) (scrollGetter t)
                  (headerSpin t))
  end.

(** [renderTopGLBHeaderCanvas] (lines 115-118): whether the overlay is
    drawn this frame. *)
Definition renderTopGLBHeaderCanvas (t : TopGLBState) : bool :=
  match renderer t, model t with
  | Some _, Some m => visible m
  | _, _ => false
  end.

(** *** The scene (lines 121-218) *)

Definition particleCount : nat := 1500.

Definition camState1 : Vector3 := V3 0 0 15.
Definition camState2 : Vector3 := V3 14 (-3) 8.
Definition camState3 : Vector3 := V3 0 0 18.

(** A node of the loaded crystal: whether it is a mesh, and the opacity
    of its material. *)
Record MeshNode := mkNode { isMesh : bool; materialOpacity : Q }.

Record Crystal := mkCrystal {
  nodes : list MeshNode;
  crystalVisible : bool;
  crystalRotationY : Q }.

(** The script's module-level state.  The three formations are filled
    once with random points (lines 183-191, 217, 218) and only read
    afterwards; [positions] is [particlesGeo.attributes.position.array]. *)
Record Page := mkPage {
  scrollProgress : Q;
  camera : Camera;
  worldCrystal : option Crystal;
  formation1 : list Q;
  formation2 : list Q;
  formation3 : list Q;
  positions : list Q;
  nebulaRotationY : Q;
  topGLBState : TopGLBState }.

(** The scroll listener (lines 209-212). *)
Definition onScroll (scrollHeight innerHeight scrollY : Q) (p : Page)
  : option Page :=
  let h := scrollHeight - innerHeight in
  if JS.gt h 0 then
    q ← JS.jsdiv scrollY h;
    Some (mkPage q (camera p) (worldCrystal p) (formation1 p)
                 (formation2 p) (formation3 p) (positions p)
                 (nebulaRotationY p) (topGLBState p))
  else Some p.

(** *** One frame: [animate] (lines 271-301) *)

(** Line 274. *)
Definition animProgress (s : Q) : Q := Qmin (s / 0.2) 1.

(** Lines 276-280: the segment and its local parameter. *)
Definition pInterp (s : Q) : Q :=
  if JS.lt s 0.5 then s * 2 else (s - 0.5) * 2.
Definition camSrc (s : Q) : Vector3 :=
  if JS.lt s 0.5 then camState1 else camState2.
Definition camDst (s : Q) : Vector3 :=
  if JS.lt s 0.5 then camState2 else camState3.
Definition pSrc (p : Page) : list Q :=
  if JS.lt (scrollProgress p) 0.5 then formation1 p else formation2 p.
Definition pDst (p : Page) : list Q :=
  if JS.lt (scrollProgress p) 0.5 then formation2 p else formation3 p.

(** Lines 281-282: move the camera, then turn it to the origin. *)
Definition moveCamera (s : Q) (c : Camera) : Camera :=
  lookAt (mkCamera (lerpVectors (camSrc s) (camDst s) (pInterp s))
                   (lookTarget c)) 0 0 0.

(** Lines 284-288: fade and spin the crystal once it is loaded. *)
Definition fadeCrystal (s elapsedTime : Q) (c : Crystal) : Crystal :=
  mkCrystal
    ((fun n => if isMesh n
               then mkNode (isMesh n) (1 - animProgress s)
               else n) <$> nodes c)
    (JS.lt (animProgress s) 1)
    (0.3 * elapsedTime).

(** Line 290, the body of the loop for particle [i]: the three targets
    are computed, then the three slots are eased toward them. *)
Definition easeParticle (src dst : list Q) (p : Q) (i : nat)
  (arr : list Q) : list Q :=
  let i3 := (i * 3)%nat in
  let tX := MathUtils.lerp (rd src i3) (rd dst i3) p in
  let tY := MathUtils.lerp (rd src (i3 + 1)) (rd dst (i3 + 1)) p in
  let tZ := MathUtils.lerp (rd src (i3 + 2)) (rd dst (i3 + 2)) p in
  let arr := <[i3 := MathUtils.lerp (rd arr i3) tX 0.07]> arr in
  let arr := <[(i3 + 1)%nat :=
                 MathUtils.lerp (rd arr (i3 + 1)) tY 0.07]> arr in
  <[(i3 + 2)%nat := MathUtils.lerp (rd arr (i3 + 2)) tZ 0.07]> arr.

(** The loop [for (let i = 0; i < particleCount; i++)], with [n]
    iterations left and counter [i]. *)
Fixpoint easeLoop (src dst : list Q) (p : Q) (n i : nat) (arr : list Q)
  : list Q :=
  match n with
  | O => arr
  | S n' => easeLoop src dst p n' (S i) (easeParticle src dst p i arr)
  end.

Definition easeParticles (src dst : list Q) (p : Q) (arr : list Q)
  : list Q :=
  easeLoop src dst p particleCount 0 arr.

Section Frame.

Variable tanHalfFov : Q -> Q.

(** [animate], as far as the source can be read: the statements of lines
    273-290 and 294-295.  The pointer repulsion of line 292, which adds to
    the position buffer after the easing, is left out (its loop is not
    legible in the source), so [positions] is the buffer as the easing loop
    leaves it; and a frame in which a quotient has a zero denominator has no
    value here, where the source goes on with [NaN] or [Infinity].  It
    only says which blocks a frame is made of. *)
Definition animate (elapsedTime now : Q) (rect : DOMRect) (p : Page)
  : option Page :=
  let s := scrollProgress p in
  let camera' := moveCamera s (camera p) in
  let crystal' := fadeCrystal s elapsedTime <$> worldCrystal p in
  let positions' := easeParticles (pSrc p) (pDst p) (pInterp s)
                                  (positions p) in
  t1 ← updateTopGLB now s 0.01 0.12 (topGLBState p);
  t2 ← updateTopGLBHeaderCanvasLayout tanHalfFov rect t1;
  Some (mkPage s camera' crystal' (formation1 p) (formation2 p)
               (formation3 p) positions' (-0.05 * elapsedTime) t2).

End Frame.

(** *** Setting the overlay up, and the pointer *)

(** [loadTopGLB(mainScene, mainCamera, { url, initialScale = 1,
    playAnimations })] (lines 45-55) once the file is loaded: the overlay
    camera is [PerspectiveCamera(60, 1, 0.1, 1000)] at [z = 5], and the
    model is the loaded scene (visible, not rotated) at the given scale. *)
Definition loadTopGLB (initialScale : option Q) (t : TopGLBState)
  : TopGLBState :=
  mkTop (Some (mkTopCamera 60 1 5)) (renderer t)
        (Some (mkModel (default 1 initialScale) true 0))
        (headerEl t) (canvasOpacity t) (canvasDisplayed t) (config t)
        (scrollGetter t) (headerSpin t).

(** The keys of the argument [config] of [topGLBUseHeaderCanvas] that the
    layout reads; an absent key is [None]. *)
Record ConfigArg := mkConfigArg {
  argFit : option string;
  argFitAmount : option Q }.

(** [topGLBUseHeaderCanvas(headerId, config)] (lines 66-75); [found] is
    whether [document.getElementById(headerId)] gave an element.  The new
    canvas is a fresh element (300 by 150, displayed, its opacity not yet
    set, which shows as 1) and the renderer is built on it. *)
Definition topGLBUseHeaderCanvas (found : bool) (arg : ConfigArg)
  (t : TopGLBState) : TopGLBState :=
  if negb found then
    mkTop (tcamera t) (renderer t) (model t) false (canvasOpacity t)
          (canvasDisplayed t) (config t) (scrollGetter t) (headerSpin t)
  else
    mkTop (tcamera t) (Some (300, 150)) (model t) true 1 true
          (mkConfig (default (fit (config t)) (argFit arg))
                    (default (fitAmount (config t)) (argFitAmount arg)))
          (scrollGetter t) (headerSpin t).

(** The pointer in normalised device coordinates. *)
Record Mouse := mkMouse { mouseX : Q; mouseY : Q }.

(** The [mousemove] listener (line 207). *)
Definition onMouseMove (clientX clientY innerWidth innerHeight : Q)
  : option Mouse :=
  qx ← JS.jsdiv clientX innerWidth;
  qy ← JS.jsdiv clientY innerHeight;
  Some (mkMouse (qx * 2 - 1) (- qy * 2 + 1)).

End Main.

(** ** The overlay module ([src/top-glb-loader.js]) *)

Module Loader.

(** Line 18. *)
Definition clamp01 (x : Q) : Q := Qmin 1 (Qmax 0 x).

(** Line 19, on exact rationals.  The values agree with the binary64
    results up to rounding; the order of the results at two arguments that
    are a rounding error apart is that of [Binary64.smoothstep], not of this
    function. *)
Definition smoothstep (t : Q) : Q :=
  let t := clamp01 t in t * t * (3 - 2 * t).

(** [a || b] on numbers: [b] when [a] is zero. *)
Definition or_else (a b : Q) : Q := if Qeq_bool a 0 then b else a.

(** The denominator [max] of the scroll listener (line 27). *)
Definition scrollMax (scrollHeight clientHeight : Q) : Q :=
  Qmax 1 (scrollHeight - clientHeight).

(** The scroll listener (lines 24-29): the new [_scrollProgress]. *)
Definition onScroll (docScrollTop bodyScrollTop scrollHeight clientHeight : Q)
  : option Q :=
  let scrollTop := or_else docScrollTop (or_else bodyScrollTop 0) in
  let max := scrollMax scrollHeight clientHeight in
  q ← JS.jsdiv scrollTop max;
  Some (clamp01 q).

(** A material, and a node of the loaded object with its materials. *)
Record Material := mkMat {
  transparent : bool;
  mopacity : Q;
  needsUpdate : bool }.

Record Node := mkNode {
  isMesh : bool;
  isPoints : bool;
  material : list Material }.

(** [setOpacity(obj, opacity)] (lines 32-44) on the nodes [traverse]
    visits. *)
Definition setOpacity (obj : list Node) (opacity : Q) : list Node :=
  (fun n =>
     if isMesh n || isPoints n
     then mkNode (isMesh n) (isPoints n)
                 ((fun _ => mkMat true opacity true) <$> material n)
     else n) <$> obj.

(** [_topGLB] (lines 7-12); [mixer] holds the animation time played. *)
Record TopGLB := mkTopGLB {
  object : option (list Node);
  mixer : option Q;
  ready : bool;
  opacity : Q }.

(** The argument of [updateTopGLB]; an absent key takes its default. *)
Record Options := mkOptions {
  showAt : option Q;
  fullAt : option Q;
  lerpSpeed : option Q }.

(** Lines 105-112: the target opacity for the scroll value [raw] that
    [_getScrollProgress()] returns (exact rationals, as [smoothstep]; the
    comparisons with the thresholds are exact on binary64 too). *)
Definition targetOpacity (raw showAt fullAt : Q) : option Q :=
  let sp := clamp01 raw in
  t ← (if JS.le sp showAt then Some 0
       else if JS.ge sp fullAt then Some 1
       else JS.jsdiv (sp - showAt) (Qmax 0.000001 (fullAt - showAt)));
  let eased := smoothstep t in
  Some eased.

(** [updateTopGLB(options)] (lines 95-118); [delta] is
    [_clockForTop.getDelta()]. *)
Definition updateTopGLB (delta raw : Q) (options : Options) (g : TopGLB)
  : option TopGLB :=
  match ready g, object g with
  | true, Some obj =>
      let showAt := default 0.01 (showAt options) in
      let fullAt := default 0.12 (fullAt options) in
      let lerpSpeed := default 8 (lerpSpeed options) in
      targetOpacity ← targetOpacity raw showAt fullAt;
      let opacity' :=
        opacity g + (targetOpacity - opacity g) * Qmin 1 (delta * lerpSpeed) in
      Some (mkTopGLB (Some (setOpacity obj opacity'))
                     ((fun played => played + delta) <$> mixer g)
                     (ready g) opacity')
  | _, _ => Some g
  end.

(** The style of the overlay canvas (lengths in pixels). *)
Record CanvasStyle := mkStyle {
  display : string;
  styleLeft : Q;
  styleTop : Q;
  styleWidth : Q;
  styleHeight : Q }.

Record OrthoCamera := mkOrtho {
  camLeft : Q; camRight : Q; camTop : Q; camBottom : Q }.

(** [_headerCanvas] (lines 122-137).  [enabled] is set only after the
    renderer, canvas, camera and pivot exist, so they are not optional
    here; [rendererSize] is the size given to [renderer.setSize]. *)
Record HeaderCanvas := mkHeader {
  enabled : bool;
  rendererSize : Q * Q;
  camera : OrthoCamera;
  canvas : CanvasStyle;
  pivotPosition : Vector3;
  pivotScale : Q;
  headerEl : bool;
  fit : string;
  fitAmount : Q;
  offsetX : Q;
  offsetY : Q;
  needsLayout : bool }.

Definition withDisplay (d : string) (c : CanvasStyle) : CanvasStyle :=
  mkStyle d (styleLeft c) (styleTop c) (styleWidth c) (styleHeight c).

(** Lines 249-251: the scale for a bounding box of the given [size]. *)
Definition fitScale (fit : string) (fitAmount : Q) (rect : DOMRect)
  (size : Vector3) : option Q :=
  if JS.streq fit "height" && JS.gt (vy size) 0
  then JS.jsdiv (height rect * fitAmount) (vy size)
  else if JS.streq fit "width" && JS.gt (vx size) 0
  then JS.jsdiv (width rect * fitAmount) (vx size)
  else Some 1.

(** [updateTopGLBHeaderCanvasLayout] (lines 219-256); [rect] is the
    header's bounding rectangle and [size] the size of the object's
    bounding box as [Box3.getSize] returns it. *)
Definition updateTopGLBHeaderCanvasLayout (rect : DOMRect) (size : Vector3)
  (g : TopGLB) (h : HeaderCanvas) : option HeaderCanvas :=
  match enabled h, headerEl h, object g with
  | true, true, Some _ =>
      let visible := JS.gt (width rect) 0 && JS.gt (height rect) 0 in
      let canvas1 :=
        withDisplay (if visible then "block" else "none") (canvas h) in
      if negb visible then
        Some (mkHeader (enabled h) (rendererSize h) (camera h) canvas1
                       (pivotPosition h) (pivotScale h) (headerEl h) (fit h)
                       (fitAmount h) (offsetX h) (offsetY h) (needsLayout h))
      else
        let canvas2 :=
          mkStyle (display canvas1) (left rect) (top rect) (width rect)
                  (height rect) in
        let cam := mkOrtho (- width rect / 2) (width rect / 2)
                           (height rect / 2) (- height rect / 2) in
        s ← fitScale (fit h) (fitAmount h) rect size;
        Some (mkHeader (enabled h) (width rect, height rect) cam canvas2
                       (V3 (offsetX h) (offsetY h) 0) s (headerEl h) (fit h)
                       (fitAmount h) (offsetX h) (offsetY h) false)
  | _, _, _ => Some h
  end.

(** *** Loading, materials, attaching and spinning *)

(** What [loadTopGLB] reads of the loaded file: [gltf.scene],
    [gltf.scenes?.[0]] and the number of animation clips. *)
Record Gltf := mkGltf {
  scene : option (list Node);
  firstScene : option (list Node);
  animations : nat }.

(** [loadTopGLB(sceneIgnored, cameraIgnored, opts)] (lines 50-93) once the
    file is loaded; [None] is the thrown [GLB has no scene].  Every
    material of a mesh or points node is made transparent with opacity 0;
    the mixer starts at time 0 when animations are to be played and there
    are some.  The object's own scale ([initialScale]) is not part of
    [TopGLB]. *)
Definition loadTopGLB (playAnimations : option bool) (gltf : Gltf)
  : option TopGLB :=
  let obj := match scene gltf with
             | Some o => Some o
             | None => firstScene gltf
             end in
  match obj with
  | None => None
  | Some o =>
      let o' :=
        (fun c =>
           if isMesh c || isPoints c
           then mkNode (isMesh c) (isPoints c)
                       ((fun m => mkMat true 0 (needsUpdate m)) <$> material c)
           else c) <$> o in
      let mixer :=
        if default true playAnimations && negb (Nat.eqb (animations gltf) 0)
        then Some 0 else None in
      Some (mkTopGLB (Some o') mixer true 0)
  end.

(** [setTopGLBMaterial(material)] (lines 266-276): every mesh shares the
    given material, which takes the current opacity.  [None] is a missing
    (falsy) argument. *)
Definition setTopGLBMaterial (material : option Material) (g : TopGLB)
  : TopGLB :=
  match object g, material with
  | Some obj, Some _ =>
      mkTopGLB
        (Some ((fun n =>
                  if isMesh n
                  then mkNode (isMesh n) (isPoints n)
                              [mkMat true (opacity g) true]
                  else n) <$> obj))
        (mixer g) (ready g) (opacity g)
  | _, _ => g
  end.

(** The keys of the argument [options] of [topGLBUseHeaderCanvas] that
    the layout reads. *)
Record UseOptions := mkUseOptions {
  optFit : option string;
  optFitAmount : option Q;
  optOffsetX : option Q;
  optOffsetY : option Q }.

(** [_initHeaderCanvas] (lines 139-172) as far as [HeaderCanvas] records
    it: a new renderer on a fresh 300 by 150 canvas placed at the top left,
    the camera [OrthographicCamera(-1, 1, 1, -1, ...)], an empty pivot. *)
Definition _initHeaderCanvas (h : HeaderCanvas) : HeaderCanvas :=
  mkHeader (enabled h) (300, 150) (mkOrtho (-1) 1 1 (-1))
           (mkStyle (display (canvas h)) 0 0 (styleWidth (canvas h))
                    (styleHeight (canvas h)))
           (V3 0 0 0) 1 (headerEl h) (fit h) (fitAmount h) (offsetX h)
           (offsetY h) (needsLayout h).

(** [topGLBUseHeaderCanvas(headerSelectorOrEl, options)] (lines 174-217);
    [el] is whether the argument resolved to an element and [hasRenderer]
    whether [_headerCanvas.renderer] exists already.  [options.fit] falls
    back to ['height'] when absent or empty, [options.fitAmount] to 0.9 when
    absent, the offsets to 0. *)
Definition topGLBUseHeaderCanvas (el hasRenderer : bool)
  (options : UseOptions) (g : TopGLB) (h : HeaderCanvas) : HeaderCanvas :=
  match object g with
  | None => h
  | Some _ =>
      if negb el then h
      else
        let h1 := if hasRenderer then h else _initHeaderCanvas h in
        mkHeader true (rendererSize h1) (camera h1) (canvas h1)
                 (pivotPosition h1) (pivotScale h1) true
                 (match optFit options with
                  | Some f => if JS.streq f "" then "height" else f
                  | None => "height"
                  end)
                 (default 0.9 (optFitAmount options))
                 (default 0 (optOffsetX options))
                 (default 0 (optOffsetY options))
                 true
  end.

(** [setTopGLBHeaderSpin(speed = 0.18)] (lines 261-264): the new
    [_headerSpin.speed]. *)
Definition setTopGLBHeaderSpin (speed : option Q) : Q := default 0.18 speed.

(** [renderTopGLBHeaderCanvas] (lines 278-288): the pivot's [rotation.y]
    after the frame, [dt] being [_headerSpin.clock.getDelta()]. *)
Definition renderTopGLBHeaderCanvas (dt speed : Q) (h : HeaderCanvas)
  (rotationY : Q) : Q :=
  if negb (enabled h) then rotationY
  else if negb (Qeq_bool speed 0) then rotationY + dt * speed
  else rotationY.

End Loader.

(** ** The same expressions on binary64 numbers

    Expressions of the two scripts on the kernel's binary64 floats, to run
    the inputs at which the rational model is evaluated below on
    JavaScript's own number type. *)

Module Binary64.

Set Warnings "-inexact-float".

(** [Math.max(a, b)]. *)
Definition max (a b : float) : float :=
  if PrimFloat.is_nan a || PrimFloat.is_nan b then PrimFloat.nan
  else if PrimFloat.ltb a b then b else a.

(** Line 105 of the page script. *)
Definition overlayOpacity (scroll showAt fullAt : float) : float :=
  max 0%float
      (PrimFloat.div (PrimFloat.sub scroll showAt)
                     (PrimFloat.sub fullAt showAt)).

(** Line 85 of the page script. *)
Definition aspect (rectWidth rectHeight : float) : float :=
  PrimFloat.div rectWidth rectHeight.

Definition showAt : float := 0.01%float.
Definition fullAt : float := 0.12%float.

(** [Math.min(a, b)]. *)
Definition min (a b : float) : float :=
  if PrimFloat.is_nan a || PrimFloat.is_nan b then PrimFloat.nan
  else if PrimFloat.ltb a b then a else b.

(** Line 18 of the overlay module. *)
Definition clamp01 (x : float) : float := min 1%float (max 0%float x).

(** Line 19 of the overlay module. *)
Definition smoothstep (t : float) : float :=
  let t := clamp01 t in
  PrimFloat.mul (PrimFloat.mul t t)
                (PrimFloat.sub 3%float (PrimFloat.mul 2%float t)).

End Binary64.

(** ** What the specification says, in its own words *)

(** Section 4.1: [scrollTop / max(1, scrollHeight - viewportHeight)]. *)
Definition spec_scrollProgress (scrollTop scrollHeight viewportHeight : Q) : Q :=
  scrollTop / Qmax 1 (scrollHeight - viewportHeight).

(** Continuity of [f] on the rationals that satisfy [P]. *)
Definition continuous_on (P : Q -> Prop) (f : Q -> Q) : Prop :=
  forall x, P x ->
  forall eps, 0 < eps ->
  exists delta, 0 < delta /\
    forall y, P y -> Qabs (y - x) < delta -> Qabs (f y - f x) < eps.

(** Section 4.2: the eased value of slot [j],
    [lerp(current[j], target[j], k)] with [k = 0.07] and
    [target[j] = lerp(source[j], dest[j], p)]. *)
Definition spec_eased (src dst : list Q) (p : Q) (current : list Q) (j : nat)
  : Q :=
  MathUtils.lerp (rd current j)
                 (MathUtils.lerp (rd src j) (rd dst j) p) 0.07.

(** ** Sequences of frames and calls *)

(** The pivot's rotation after one overlay frame per elapsed time of
    [dts]. *)
Definition spinFrames (dts : list Q) (speed : Q) (h : Loader.HeaderCanvas)
  (rotationY : Q) : Q :=
  foldl (fun r dt => Loader.renderTopGLBHeaderCanvas dt speed h r)
        rotationY dts.

(** The calls a host page makes on the loaded overlay object. *)
Inductive LoaderCall :=
| CallUpdate (delta raw : Q) (options : Loader.Options)
| CallSetMaterial (material : option Loader.Material).

Definition runCall (c : LoaderCall) (g : Loader.TopGLB)
  : option Loader.TopGLB :=
  match c with
  | CallUpdate delta raw options => Loader.updateTopGLB delta raw options g
  | CallSetMaterial material => Some (Loader.setTopGLBMaterial material g)
  end.

Fixpoint runCalls (cs : list LoaderCall) (g : Loader.TopGLB)
  : option Loader.TopGLB :=
  match cs with
  | [] => Some g
  | c :: cs' => g' ← runCall c g; runCalls cs' g'
  end.

(** A call the clock and the caller can make: time does not run
    backwards and the speed is not negative. *)
Definition callOk (c : LoaderCall) : Prop :=
  match c with
  | CallUpdate delta _ options =>
      0 <= delta /\ 0 <= default 8 (Loader.lerpSpeed options)
  | CallSetMaterial _ => True
  end.

(** Every material of every mesh or points node shows the opacity kept in
    [_topGLB.opacity]. *)
Definition materialsInSync (g : Loader.TopGLB) : Prop :=
  forall obj i n k m,
    Loader.object g = Some obj ->
    obj !! i = Some n ->
    Loader.isMesh n || Loader.isPoints n = true ->
    Loader.material n !! k = Some m ->
    Loader.mopacity m = Loader.opacity g.

(** ** Concrete states *)

(** A loaded overlay attached to the header, as the page script has it
    after lines 258-263. *)
Definition attachedTop : Main.TopGLBState :=
  Main.mkTop (Some (Main.mkTopCamera 60 1 5)) (Some (300, 150))
             (Some (Main.mkModel 1 true 0)) true 1 true
             (Main.mkConfig "height" 0.55) (fun scrollProgress => scrollProgress)
             0.18.

(** The page before anything is loaded, with one particle instead of
    [particleCount]. *)
Definition smallPage : Main.Page :=
  Main.mkPage 0 (mkCamera (V3 0 0 12) None) None
              [1; 2; 3] [4; 5; 6] [7; 8; 9] [1; 2; 3] 0 Main.initialTop.

(** The overlay module with a one-mesh object loaded and the header canvas
    enabled (lines 87-90 and 191-216), before the first layout. *)
Definition loadedTopGLB : Loader.TopGLB :=
  Loader.mkTopGLB
    (Some [Loader.mkNode true false [Loader.mkMat true 0 false]])
    None true 0.

Definition enabledHeader : Loader.HeaderCanvas :=
  Loader.mkHeader true (300, 150) (Loader.mkOrtho (-1) 1 1 (-1))
                  (Loader.mkStyle "" 0 0 300 150) (V3 0 0 0) 1 true
                  "height" 0.9 0 0 true.

(** ** Comparisons and quotients *)

Section Numbers.

Lemma lt_true a b : JS.lt a b = true <-> a < b.
Proof.
  unfold JS.lt. rewrite Qlt_alt.
  destruct (a ?= b); split; intros H; congruence.
Qed.

Lemma lt_false a b : JS.lt a b = false <-> b <= a.
Proof.
  rewrite <- not_true_iff_false, lt_true. split.
  - apply Qnot_lt_le.
  - apply Qle_not_lt.
Qed.

Lemma gt_true a b : JS.gt a b = true <-> b < a.
Proof. apply lt_true. Qed.

Lemma gt_false a b : JS.gt a b = false <-> a <= b.
Proof. apply lt_false. Qed.

Lemma le_true a b : JS.le a b = true <-> a <= b.
Proof.
  unfold JS.le. rewrite Qle_alt.
  destruct (a ?= b); split; intros H; congruence.
Qed.

Lemma le_false a b : JS.le a b = false <-> b < a.
Proof.
  rewrite <- not_true_iff_false, le_true. split.
  - apply Qnot_le_lt.
  - apply Qlt_not_le.
Qed.

Lemma ge_true a b : JS.ge a b = true <-> b <= a.
Proof. apply le_true. Qed.

Lemma ge_false a b : JS.ge a b = false <-> a < b.
Proof. apply le_false. Qed.

Lemma jsdiv_nonzero a b : ~ b == 0 -> JS.jsdiv a b = Some (a / b).
Proof.
  intros H. unfold JS.jsdiv.
  destruct (Qeq_bool b 0) eqn:E; [|reflexivity].
  apply Qeq_bool_eq in E. contradiction.
Qed.

Lemma jsdiv_zero a b : b == 0 -> JS.jsdiv a b = None.
Proof.
  intros H. unfold JS.jsdiv. apply Qeq_eq_bool in H. now rewrite H.
Qed.

Lemma jsdiv_Some a b q : JS.jsdiv a b = Some q -> ~ b == 0 /\ q = a / b.
Proof.
  unfold JS.jsdiv. destruct (Qeq_bool b 0) eqn:E; [discriminate|].
  intros [= <-]. split; [|reflexivity].
  intros H. apply Qeq_eq_bool in H. congruence.
Qed.

Lemma Qmin_cases a b : (a <= b /\ Qmin a b == a) \/ (b <= a /\ Qmin a b == b).
Proof.
  destruct (Q.min_spec a b) as [[H E]|[H E]]; [left|right]; split;
    auto using Qlt_le_weak.
Qed.

Lemma Qmax_cases a b : (a <= b /\ Qmax a b == b) \/ (b <= a /\ Qmax a b == a).
Proof.
  destruct (Q.max_spec a b) as [[H E]|[H E]]; [left|right]; split;
    auto using Qlt_le_weak.
Qed.

Lemma clamp01_range x : 0 <= Loader.clamp01 x <= 1.
Proof.
  unfold Loader.clamp01.
  destruct (Qmax_cases 0 x) as [[? E1]|[? E1]],
           (Qmin_cases 1 (Qmax 0 x)) as [[? E2]|[? E2]]; lra.
Qed.

Lemma clamp01_id x : 0 <= x <= 1 -> Loader.clamp01 x == x.
Proof.
  intros [? ?]. unfold Loader.clamp01.
  destruct (Qmax_cases 0 x) as [[? E1]|[? E1]],
           (Qmin_cases 1 (Qmax 0 x)) as [[? E2]|[? E2]]; lra.
Qed.

End Numbers.

(** ** The frame function and its blocks *)

Section FrameFacts.

Variable tanHalfFov : Q -> Q.

(** A frame that completes is made of its blocks. *)
Lemma animate_blocks elapsedTime now rect p p' :
  Main.animate tanHalfFov elapsedTime now rect p = Some p' ->
  Main.scrollProgress p' = Main.scrollProgress p /\
  Main.camera p' = Main.moveCamera (Main.scrollProgress p) (Main.camera p) /\
  Main.worldCrystal p' =
    Main.fadeCrystal (Main.scrollProgress p) elapsedTime
      <$> Main.worldCrystal p /\
  Main.positions p' =
    Main.easeParticles (Main.pSrc p) (Main.pDst p)
      (Main.pInterp (Main.scrollProgress p)) (Main.positions p).
Proof.
  unfold Main.animate. intros H.
  destruct (Main.updateTopGLB _ _ _ _ _) as [t1|]; [|discriminate].
  simpl in H.
  destruct (Main.updateTopGLBHeaderCanvasLayout _ _ _) as [t2|];
    [|discriminate].
  simpl in H. injection H as <-. simpl. auto.
Qed.

(** Before the overlay is loaded, every frame completes. *)
Lemma animate_runs_unloaded elapsedTime now rect p :
  Main.model (Main.topGLBState p) = None ->
  Main.renderer (Main.topGLBState p) = None ->
  is_Some (Main.animate tanHalfFov elapsedTime now rect p).
Proof.
  intros Hm Hr. unfold Main.animate, Main.updateTopGLB. rewrite Hm. simpl.
  unfold Main.updateTopGLBHeaderCanvasLayout. rewrite Hr. simpl. eauto.
Qed.

End FrameFacts.

(** ** Camera and segment selection *)

(** C1: for every scroll fraction [s] the frame picks its segment and
    local parameter as specified.  If [s < 0.5] then [p = s * 2], the
    camera goes from waypoint 1 to waypoint 2 and the particles from
    formation 1 to formation 2; otherwise [p = (s - 0.5) * 2] with waypoints
    2, 3 and formations 2, 3.  The camera is placed at
    [lerp(source, destination, p)] and then turned to look at the origin,
    and this is the camera a completed frame leaves. *)
Theorem two_stage_blend_selects_segment :
  forall (tanHalfFov : Q -> Q) (elapsedTime now : Q) (rect : DOMRect)
         (p : Main.Page),
    let s := Main.scrollProgress p in
    (s < 0.5 ->
       Main.pInterp s = s * 2 /\
       Main.camSrc s = Main.camState1 /\ Main.pSrc p = Main.formation1 p /\
       Main.camDst s = Main.camState2 /\ Main.pDst p = Main.formation2 p) /\
    (~ s < 0.5 ->
       Main.pInterp s = (s - 0.5) * 2 /\
       Main.camSrc s = Main.camState2 /\ Main.pSrc p = Main.formation2 p /\
       Main.camDst s = Main.camState3 /\ Main.pDst p = Main.formation3 p) /\
    position (Main.moveCamera s (Main.camera p)) =
      lerpVectors (Main.camSrc s) (Main.camDst s) (Main.pInterp s) /\
    lookTarget (Main.moveCamera s (Main.camera p)) = Some (V3 0 0 0) /\
    (forall p', Main.animate tanHalfFov elapsedTime now rect p = Some p' ->
       Main.camera p' = Main.moveCamera s (Main.camera p)).
Proof.
  intros tanHalfFov elapsedTime now rect p s.
  unfold Main.pInterp, Main.camSrc, Main.camDst, Main.pSrc, Main.pDst.
  fold s. repeat split.
  1-5: apply lt_true in H; rewrite H; reflexivity.
  1-5: destruct (JS.lt s 0.5) eqn:E;
       [apply lt_true in E; contradiction | reflexivity].
  intros p' H. apply animate_blocks in H. tauto.
Qed.

(** ** The crystal's fade *)

Lemma animProgress_lt_1 s : Main.animProgress s < 1 <-> s / 0.2 < 1.
Proof.
  unfold Main.animProgress.
  destruct (Qmin_cases (s / 0.2) 1) as [[H E]|[H E]]; rewrite E; split;
    intros ?; lra.
Qed.

(** Every mesh of the crystal gets the opacity [1 - animProgress]. *)
Lemma fadeCrystal_mesh s elapsedTime c i n :
  Main.nodes c !! i = Some n -> Main.isMesh n = true ->
  exists n', Main.nodes (Main.fadeCrystal s elapsedTime c) !! i = Some n' /\
             Main.isMesh n' = true /\
             Main.materialOpacity n' = 1 - Main.animProgress s.
Proof.
  intros Hn Hmesh. simpl.
  rewrite list_lookup_fmap, Hn. simpl. rewrite Hmesh.
  eexists. split; [reflexivity|]. simpl. auto.
Qed.

(** C2: for every scroll fraction [s], once the crystal is loaded each of
    its meshes gets opacity [1 - min(s / 0.2, 1)], and the crystal is
    visible exactly when that opacity is positive, that is, exactly when
    [s / 0.2 < 1]. *)
Theorem crystal_opacity_and_visibility :
  forall (s elapsedTime : Q) (c : Main.Crystal),
    let c' := Main.fadeCrystal s elapsedTime c in
    (forall i n, Main.nodes c !! i = Some n -> Main.isMesh n = true ->
       exists n', Main.nodes c' !! i = Some n' /\ Main.isMesh n' = true /\
                  Main.materialOpacity n' = 1 - Qmin (s / 0.2) 1) /\
    (Main.crystalVisible c' = true <-> 0 < 1 - Qmin (s / 0.2) 1) /\
    (Main.crystalVisible c' = true <-> s / 0.2 < 1).
Proof.
  intros s elapsedTime c c'. split; [|split].
  - intros i n Hn Hmesh. subst c'.
    apply (fadeCrystal_mesh s elapsedTime c i n Hn Hmesh).
  - subst c'. simpl. rewrite lt_true. fold (Main.animProgress s).
    split; intros ?; lra.
  - subst c'. simpl. rewrite lt_true. apply animProgress_lt_1.
Qed.

(** ** The blend parameter *)

Lemma pInterp_low s : s < 0.5 -> Main.pInterp s = s * 2.
Proof. intros H. unfold Main.pInterp. apply lt_true in H. now rewrite H. Qed.

Lemma pInterp_high s : 0.5 <= s -> Main.pInterp s = (s - 0.5) * 2.
Proof.
  intros H. unfold Main.pInterp. apply lt_false in H. now rewrite H.
Qed.

Lemma Qabs_lt_iff x y : Qabs x < y <-> - y < x /\ x < y.
Proof.
  split.
  - intros H. split.
    + apply Qlt_le_trans with (- Qabs x).
      * apply Qopp_lt_compat in H. exact H.
      * rewrite <- (Qopp_involutive x) at 2. apply Qopp_le_compat.
        rewrite <- Qabs_opp. apply Qle_Qabs.
    + eapply Qle_lt_trans; [apply Qle_Qabs | exact H].
  - intros [H1 H2]. apply Qabs_case; intros _; lra.
Qed.

(** C4: for every [s] in [[0,1]] the blend parameter lies in [[0,1]], and
    as a function of [s] it is continuous on [[0,0.5)] and on [[0.5,1]]. *)
Theorem blend_parameter_range_and_continuity :
  (forall s, 0 <= s <= 1 -> 0 <= Main.pInterp s <= 1) /\
  continuous_on (fun s => 0 <= s /\ s < 0.5) Main.pInterp /\
  continuous_on (fun s => 0.5 <= s /\ s <= 1) Main.pInterp.
Proof.
  split; [|split].
  - intros s [H0 H1]. destruct (Qlt_le_dec s 0.5) as [H|H].
    + rewrite (pInterp_low s H). lra.
    + rewrite (pInterp_high s H). lra.
  - intros x [_ Hx] eps Heps. exists (eps * 0.5). split; [lra|].
    intros y [_ Hy] Hd.
    rewrite (pInterp_low x Hx), (pInterp_low y Hy).
    apply Qabs_lt_iff in Hd. apply Qabs_lt_iff. lra.
  - intros x [Hx _] eps Heps. exists (eps * 0.5). split; [lra|].
    intros y [Hy _] Hd.
    rewrite (pInterp_high x Hx), (pInterp_high y Hy).
    apply Qabs_lt_iff in Hd. apply Qabs_lt_iff. lra.
Qed.

(** ** Smoothstep *)

Lemma smoothstep_inside t : 0 <= t <= 1 ->
  Loader.smoothstep t == t * t * (3 - 2 * t).
Proof.
  intros H. unfold Loader.smoothstep. cbv zeta.
  rewrite (clamp01_id t H). reflexivity.
Qed.

Lemma cubic_increasing x y :
  0 <= x -> x < y -> y <= 1 -> x * x * (3 - 2 * x) < y * y * (3 - 2 * y).
Proof.
  intros Hx Hxy Hy.
  assert (E : y * y * (3 - 2 * y) - x * x * (3 - 2 * x) ==
              (y - x) * (2 * (x * (1 - x)) + 2 * (y * (1 - y)) +
                         x * (1 - y) + y * (1 - x))) by ring.
  assert (0 <= x * (1 - x)) by (apply Qmult_le_0_compat; lra).
  assert (0 <= y * (1 - y)) by (apply Qmult_le_0_compat; lra).
  assert (0 <= x * (1 - y)) by (apply Qmult_le_0_compat; lra).
  assert (0 < y * (1 - x)) by (apply Qmult_lt_0_compat; lra).
  assert (0 < (y - x) * (2 * (x * (1 - x)) + 2 * (y * (1 - y)) +
                         x * (1 - y) + y * (1 - x)))
    by (apply Qmult_lt_0_compat; lra).
  lra.
Qed.

Lemma smoothstep_range t : 0 <= Loader.smoothstep t <= 1.
Proof.
  unfold Loader.smoothstep. cbv zeta.
  pose proof (clamp01_range t) as [H0 H1].
  set (c := Loader.clamp01 t) in *.
  destruct (Qlt_le_dec 0 c) as [Hc|Hc]; [destruct (Qlt_le_dec c 1) as [Hd|Hd]|].
  - pose proof (cubic_increasing 0 c (Qle_refl 0) Hc H1).
    pose proof (cubic_increasing c 1 H0 Hd (Qle_refl 1)). split; lra.
  - assert (E : c == 1) by lra. rewrite E. split; lra.
  - assert (E : c == 0) by lra. rewrite E. split; lra.
Qed.

Lemma cubic_difference x y :
  y * y * (3 - 2 * y) - x * x * (3 - 2 * x) ==
  (y - x) * (2 * (x * (1 - x)) + 2 * (y * (1 - y)) + x * (1 - y) + y * (1 - x)).
Proof. ring. Qed.

(** C6, as stated, fails on the numbers the program computes with.  On
    binary64, line 19 gives a smaller result at [0x1.cccccccccccd9p-1] than
    at the double just below it, and the same result at the doubles nearest
    to 0.999999999 and 0.9999999995: it is not strictly increasing on
    (0,1). *)
Lemma smoothstep_binary64_not_increasing :
  PrimFloat.ltb 0%float 0x1.cccccccccccd8p-1%float = true /\
  PrimFloat.ltb 0x1.cccccccccccd8p-1%float 0x1.cccccccccccd9p-1%float = true /\
  PrimFloat.ltb 0x1.cccccccccccd9p-1%float 1%float = true /\
  PrimFloat.ltb (Binary64.smoothstep 0x1.cccccccccccd9p-1%float)
                (Binary64.smoothstep 0x1.cccccccccccd8p-1%float) = true /\
  PrimFloat.ltb 0x1.fffffff768fa1p-1%float 0x1.fffffffbb47dp-1%float = true /\
  PrimFloat.eqb (Binary64.smoothstep 0x1.fffffff768fa1p-1%float)
                (Binary64.smoothstep 0x1.fffffffbb47dp-1%float) = true.
Proof. repeat split; vm_compute; reflexivity. Qed.

(** C6, amended.  [smoothstep(0) = 0], [smoothstep(1) = 1] and
    [smoothstep(0.5) = 0.5] hold exactly, on binary64 as on the rationals.
    In exact arithmetic the difference [smoothstep(b) - smoothstep(a)] for
    [a], [b] in [[0,1]] is
    [(b - a) * (2a(1-a) + 2b(1-b) + a(1-b) + b(1-a))], whose second factor is
    positive when [0 < a < b < 1]; the binary64 results follow this up to
    rounding only. *)
Theorem smoothstep_values_and_exact_difference :
  PrimFloat.eqb (Binary64.smoothstep 0%float) 0%float = true /\
  PrimFloat.eqb (Binary64.smoothstep 1%float) 1%float = true /\
  PrimFloat.eqb (Binary64.smoothstep 0.5%float) 0.5%float = true /\
  Loader.smoothstep 0 == 0 /\
  Loader.smoothstep 1 == 1 /\
  Loader.smoothstep 0.5 == 0.5 /\
  (forall a b, 0 <= a <= 1 -> 0 <= b <= 1 ->
     Loader.smoothstep b - Loader.smoothstep a ==
     (b - a) * (2 * (a * (1 - a)) + 2 * (b * (1 - b))
                + a * (1 - b) + b * (1 - a))) /\
  (forall a b, 0 < a -> a < b -> b < 1 ->
     0 < 2 * (a * (1 - a)) + 2 * (b * (1 - b)) + a * (1 - b) + b * (1 - a)).
Proof.
  split; [vm_compute; reflexivity|].
  split; [vm_compute; reflexivity|].
  split; [vm_compute; reflexivity|].
  split; [reflexivity|]. split; [reflexivity|]. split; [reflexivity|].
  split.
  - intros a b Ha Hb.
    rewrite (smoothstep_inside a Ha), (smoothstep_inside b Hb).
    apply cubic_difference.
  - intros a b Ha Hab Hb.
    assert (0 < a * (1 - a)) by (apply Qmult_lt_0_compat; lra).
    assert (0 < b * (1 - b)) by (apply Qmult_lt_0_compat; lra).
    assert (0 < a * (1 - b)) by (apply Qmult_lt_0_compat; lra).
    assert (0 < b * (1 - a)) by (apply Qmult_lt_0_compat; lra).
    lra.
Qed.

(** ** Opacity ranges *)

(** The crystal's opacity is in [[0,1]] for a scroll fraction that is not
    negative. *)
Lemma crystal_opacity_range s :
  0 <= s -> 0 <= 1 - Main.animProgress s <= 1.
Proof.
  intros Hs. unfold Main.animProgress.
  assert (Hq : 0 <= s / 0.2) by (apply Qle_shift_div_l; lra).
  destruct (Qmin_cases (s / 0.2) 1) as [[H E]|[H E]]; rewrite E; split; lra.
Qed.

(** The overlay module's target opacity always exists and is in [[0,1]]. *)
Lemma loader_targetOpacity_range raw showAt fullAt :
  exists o, Loader.targetOpacity raw showAt fullAt = Some o /\ 0 <= o <= 1.
Proof.
  unfold Loader.targetOpacity. cbv zeta.
  destruct (JS.le _ showAt); [|destruct (JS.ge _ fullAt)]; simpl.
  - eexists. split; [reflexivity|]. apply smoothstep_range.
  - eexists. split; [reflexivity|]. apply smoothstep_range.
  - rewrite jsdiv_nonzero.
    + simpl. eexists. split; [reflexivity|]. apply smoothstep_range.
    + intros Hz.
      destruct (Qmax_cases 0.000001 (fullAt - showAt)) as [[H E]|[H E]];
        rewrite E in Hz; lra.
Qed.

(** The overlay module's [updateTopGLB] always completes, and it keeps
    the eased opacity in [[0,1]] when the elapsed time and the speed are
    not negative. *)
Lemma loader_opacity_invariant delta raw options g :
  0 <= Loader.opacity g <= 1 ->
  0 <= delta * default 8 (Loader.lerpSpeed options) ->
  exists g', Loader.updateTopGLB delta raw options g = Some g' /\
             0 <= Loader.opacity g' <= 1.
Proof.
  intros Hop Hk. unfold Loader.updateTopGLB.
  destruct (Loader.ready g); [destruct (Loader.object g) as [obj|]|];
    try (exists g; split; [reflexivity | exact Hop]).
  destruct (loader_targetOpacity_range raw
              (default 0.01 (Loader.showAt options))
              (default 0.12 (Loader.fullAt options))) as (o & -> & Ho).
  simpl. eexists. split; [reflexivity|]. simpl.
  set (k := Qmin 1 (delta * default 8 (Loader.lerpSpeed options))).
  assert (Hk' : 0 <= k <= 1).
  { subst k.
    destruct (Qmin_cases 1 (delta * default 8 (Loader.lerpSpeed options)))
      as [[Hm Em]|[Hm Em]]; rewrite Em; split; lra. }
  set (a := Loader.opacity g) in *.
  assert (E : a + (o - a) * k == (1 - k) * a + k * o) by ring.
  rewrite E.
  assert (0 <= (1 - k) * a) by (apply Qmult_le_0_compat; lra).
  assert (0 <= k * o) by (apply Qmult_le_0_compat; lra).
  assert (0 <= (1 - k) * (1 - a)) by (apply Qmult_le_0_compat; lra).
  assert (0 <= k * (1 - o)) by (apply Qmult_le_0_compat; lra).
  split; lra.
Qed.

(** C3: the page script's [updateTopGLB], called as the frame calls it,
    floors the overlay opacity at 0 and gives it no upper bound.  Halfway
    down the page (scroll fraction 0.5) the canvas gets the opacity 49/11,
    and at the scroll fraction 1.5 it gets 149/11; both are above 1. *)
Theorem page_overlay_opacity_above_one :
  (exists t', Main.updateTopGLB 0 0.5 0.01 0.12 attachedTop = Some t' /\
              Main.canvasOpacity t' == 49 / 11 /\
              1 < Main.canvasOpacity t') /\
  (exists t', Main.updateTopGLB 0 1.5 0.01 0.12 attachedTop = Some t' /\
              Main.canvasOpacity t' == 149 / 11 /\
              1 < Main.canvasOpacity t').
Proof.
  split; (eexists; split; [vm_compute; reflexivity|]; split; reflexivity).
Qed.

(** A negative scroll fraction gives the crystal an opacity above 1. *)
Lemma crystal_opacity_negative_scroll : 1 < 1 - Main.animProgress (-0.1).
Proof. reflexivity. Qed.

(** ** The frame at the top of the page *)

(** C8: when [scrollProgress] is 0 the camera stands exactly at waypoint 1,
    every mesh of the crystal has opacity 1 and the crystal is visible, and
    the overlay's opacity is 0 (the page script's value and the overlay
    module's target). *)
Theorem frame_at_scroll_zero :
  forall (elapsedTime : Q) (cam : Camera) (c : Main.Crystal),
    veq (position (Main.moveCamera 0 cam)) Main.camState1 /\
    (forall i n, Main.nodes c !! i = Some n -> Main.isMesh n = true ->
       exists n', Main.nodes (Main.fadeCrystal 0 elapsedTime c) !! i = Some n' /\
                  Main.isMesh n' = true /\ Main.materialOpacity n' == 1) /\
    Main.crystalVisible (Main.fadeCrystal 0 elapsedTime c) = true /\
    (exists o, Main.overlayOpacity 0 0.01 0.12 = Some o /\ o == 0) /\
    (exists o, Loader.targetOpacity 0 0.01 0.12 = Some o /\ o == 0).
Proof.
  intros elapsedTime cam c. split; [|split; [|split; [|split]]].
  - repeat split; reflexivity.
  - intros i n Hn Hmesh.
    destruct (fadeCrystal_mesh 0 elapsedTime c i n Hn Hmesh)
      as (n' & H1 & H2 & H3).
    exists n'. split; [exact H1|]. split; [exact H2|]. rewrite H3. reflexivity.
  - reflexivity.
  - eexists. split; [vm_compute; reflexivity | reflexivity].
  - eexists. split; [vm_compute; reflexivity | reflexivity].
Qed.

(** ** Scroll position to scroll progress *)

Lemma scrollMax_ge_1 scrollHeight clientHeight :
  1 <= Loader.scrollMax scrollHeight clientHeight.
Proof.
  unfold Loader.scrollMax.
  destruct (Qmax_cases 1 (scrollHeight - clientHeight)) as [[H E]|[H E]];
    rewrite E; lra.
Qed.

(** C5, as stated, fails.  With a scroll offset of 1001 and an extent of
    1000 the quotient [scrollTop / max(1, scrollHeight - viewportHeight)] is
    above 1; the overlay module's listener stores 1, which is not that
    quotient, and the page script's listener stores the quotient, which is
    not in [[0,1]]. *)
Lemma scroll_progress_formula_counterexample :
  ~ spec_scrollProgress 1001 1100 100 <= 1 /\
  (exists q, Loader.onScroll 1001 0 1100 100 = Some q /\
             ~ q == spec_scrollProgress 1001 1100 100) /\
  (exists p', Main.onScroll 1100 100 1001 smallPage = Some p' /\
              ~ Main.scrollProgress p' <= 1).
Proof.
  split; [|split].
  - vm_compute. intros H. apply H. reflexivity.
  - eexists. split; [vm_compute; reflexivity|]. vm_compute. discriminate.
  - eexists. split; [vm_compute; reflexivity|]. vm_compute.
    intros H. apply H. reflexivity.
Qed.

(** C5, amended.  For every scroll offset and scroll extent the overlay
    module's listener stores
    [clamp01(scrollTop / max(1, scrollHeight - clientHeight))]: the
    denominator is at least 1, so the quotient is never one by zero, the
    stored value lies in [[0,1]], and it is the quotient itself whenever
    [0 <= scrollTop <= max(1, scrollHeight - clientHeight)]. *)
Theorem loader_scroll_progress_clamped :
  forall docScrollTop bodyScrollTop scrollHeight clientHeight : Q,
    let scrollTop :=
      Loader.or_else docScrollTop (Loader.or_else bodyScrollTop 0) in
    1 <= Loader.scrollMax scrollHeight clientHeight /\
    exists q,
      Loader.onScroll docScrollTop bodyScrollTop scrollHeight clientHeight
        = Some q /\
      q = Loader.clamp01 (scrollTop / Qmax 1 (scrollHeight - clientHeight)) /\
      0 <= q <= 1 /\
      (0 <= scrollTop <= Qmax 1 (scrollHeight - clientHeight) ->
       q == spec_scrollProgress scrollTop scrollHeight clientHeight).
Proof.
  intros docScrollTop bodyScrollTop scrollHeight clientHeight scrollTop.
  pose proof (scrollMax_ge_1 scrollHeight clientHeight) as Hmax.
  split; [exact Hmax|].
  unfold Loader.onScroll. cbv zeta. fold scrollTop.
  rewrite jsdiv_nonzero by (intros Hz; lra).
  simpl. eexists. split; [reflexivity|]. split; [reflexivity|].
  split; [apply clamp01_range|].
  intros [H0 H1]. unfold spec_scrollProgress.
  fold (Loader.scrollMax scrollHeight clientHeight) in *.
  apply clamp01_id. split.
  - apply Qle_shift_div_l; lra.
  - apply Qle_shift_div_r; lra.
Qed.

(** ** The particle easing loop *)

Lemma rd_lookup (l : list Q) j x : l !! j = Some x -> rd l j = x.
Proof. intros H. unfold rd. now rewrite H. Qed.

Lemma lookup_rd (l : list Q) j : (j < length l)%nat -> l !! j = Some (rd l j).
Proof.
  intros H. destruct (lookup_lt_is_Some_2 l j H) as [x Hx].
  now rewrite (rd_lookup l j x Hx).
Qed.

Lemma rd_insert_eq (l : list Q) j v :
  (j < length l)%nat -> rd (<[j := v]> l) j = v.
Proof. intros H. apply rd_lookup. now apply list_lookup_insert_eq. Qed.

Lemma rd_insert_ne (l : list Q) i j v : i <> j -> rd (<[i := v]> l) j = rd l j.
Proof. intros H. unfold rd. now rewrite list_lookup_insert_ne. Qed.

Section Easing.

Variables (src dst : list Q) (t : Q).

Lemma easeParticle_length i arr :
  length (Main.easeParticle src dst t i arr) = length arr.
Proof. unfold Main.easeParticle. cbv zeta. now rewrite !length_insert. Qed.

(** One pass of the loop body eases the three slots of particle [i] and
    leaves the others. *)
Lemma easeParticle_rd i arr j :
  (j < length arr)%nat ->
  rd (Main.easeParticle src dst t i arr) j =
    if decide (i * 3 <= j < i * 3 + 3)%nat
    then spec_eased src dst t arr j
    else rd arr j.
Proof.
  intros Hj. unfold Main.easeParticle, spec_eased. cbv zeta.
  destruct (decide (j = i * 3 + 2)%nat) as [->|N2].
  { rewrite rd_insert_eq by (now rewrite !length_insert).
    rewrite !rd_insert_ne by lia.
    rewrite decide_True by lia. reflexivity. }
  rewrite (rd_insert_ne _ (i * 3 + 2)) by lia.
  destruct (decide (j = i * 3 + 1)%nat) as [->|N1].
  { rewrite rd_insert_eq by (now rewrite !length_insert).
    rewrite !rd_insert_ne by lia.
    rewrite decide_True by lia. reflexivity. }
  rewrite (rd_insert_ne _ (i * 3 + 1)) by lia.
  destruct (decide (j = i * 3)%nat) as [->|N0].
  { rewrite rd_insert_eq by assumption.
    rewrite decide_True by lia. reflexivity. }
  rewrite rd_insert_ne by lia.
  rewrite decide_False by lia. reflexivity.
Qed.

Lemma easeLoop_length n : forall i arr,
  length (Main.easeLoop src dst t n i arr) = length arr.
Proof.
  induction n as [|n IH]; intros i arr; simpl; [reflexivity|].
  now rewrite IH, easeParticle_length.
Qed.

(** The loop eases every slot of the particles it visits exactly once. *)
Lemma easeLoop_rd n : forall i arr j,
  (j < length arr)%nat ->
  rd (Main.easeLoop src dst t n i arr) j =
    if decide (i * 3 <= j < (i + n) * 3)%nat
    then spec_eased src dst t arr j
    else rd arr j.
Proof.
  induction n as [|n IH]; intros i arr j Hj; simpl.
  - rewrite decide_False by lia. reflexivity.
  - rewrite IH by (now rewrite easeParticle_length).
    unfold spec_eased. rewrite !easeParticle_rd by assumption.
    destruct (decide (i * 3 <= j < i * 3 + 3)%nat) as [W|W].
    + rewrite decide_False by lia. rewrite decide_True by lia. reflexivity.
    + destruct (decide (S i * 3 <= j < (S i + n) * 3)%nat) as [L|L].
      * rewrite decide_True by lia. reflexivity.
      * rewrite decide_False by lia. reflexivity.
Qed.

(** What the whole loop leaves in slot [j]. *)
Lemma easeParticles_lookup arr j :
  (j < length arr)%nat ->
  Main.easeParticles src dst t arr !! j =
    Some (if decide (j < Main.particleCount * 3)%nat
          then spec_eased src dst t arr j
          else rd arr j).
Proof.
  intros Hj. unfold Main.easeParticles.
  rewrite lookup_rd by (now rewrite easeLoop_length).
  rewrite easeLoop_rd by assumption. f_equal.
  destruct (decide (j < Main.particleCount * 3)%nat).
  - rewrite decide_True by lia. reflexivity.
  - rewrite decide_False by lia. reflexivity.
Qed.

End Easing.

Lemma lerp_same x k : MathUtils.lerp x x k == x.
Proof. unfold MathUtils.lerp. ring. Qed.

Lemma lerp_to_equal x y k : x == y -> MathUtils.lerp x y k == x.
Proof. intros H. unfold MathUtils.lerp. rewrite <- H. ring. Qed.

(** C7: the easing step [current[j] = lerp(current[j], target[j], 0.07)]
    keeps a slot that is already at its target.  For every slot [j] of the
    buffer, if [current[j]] equals [target[j] = lerp(src[j], dst[j], p)]
    then after the easing loop [current[j]] has the value it had. *)
Theorem easing_keeps_fixed_point :
  forall (src dst current : list Q) (p : Q) (j : nat) (c a b : Q),
    current !! j = Some c ->
    src !! j = Some a ->
    dst !! j = Some b ->
    c == MathUtils.lerp a b p ->
    exists c', Main.easeParticles src dst p current !! j = Some c' /\ c' == c.
Proof.
  intros src dst current p j c a b Hc Ha Hb Hfix.
  assert (Hj : (j < length current)%nat)
    by (apply lookup_lt_is_Some_1; eauto).
  rewrite (easeParticles_lookup src dst p current j Hj).
  eexists. split; [reflexivity|].
  destruct (decide (j < Main.particleCount * 3)%nat); unfold spec_eased;
    rewrite (rd_lookup _ _ _ Hc); [|reflexivity].
  rewrite (rd_lookup _ _ _ Ha), (rd_lookup _ _ _ Hb).
  apply lerp_to_equal. exact Hfix.
Qed.

Lemma easing_keeps_fixed_point_witness :
  exists c', Main.easeParticles [0; 0; 0] [2; 4; 6] 0.5 [1; 7; 7] !! 0%nat
               = Some c' /\ c' == 1.
Proof.
  apply (easing_keeps_fixed_point [0; 0; 0] [2; 4; 6] [1; 7; 7] 0.5 0 1 0 2);
    reflexivity.
Defined.

(** ** Layout of the header canvas *)

(** The rectangle test of the overlay module (line 225). *)
Lemma rect_visible_true (rect : DOMRect) :
  JS.gt (width rect) 0 && JS.gt (height rect) 0 = true <->
  0 < width rect /\ 0 < height rect.
Proof. now rewrite andb_true_iff, !gt_true. Qed.

(** The guarded quotient of lines 249-251 always has a value. *)
Lemma fitScale_cases fit fitAmount rect size :
  exists s, Loader.fitScale fit fitAmount rect size = Some s /\
    (fit = "height"%string -> 0 < vy size ->
       s = height rect * fitAmount / vy size) /\
    (fit = "height"%string -> ~ 0 < vy size -> s = 1) /\
    (fit = "width"%string -> 0 < vx size ->
       s = width rect * fitAmount / vx size) /\
    (fit = "width"%string -> ~ 0 < vx size -> s = 1) /\
    (fit <> "height"%string -> fit <> "width"%string -> s = 1).
Proof.
  unfold Loader.fitScale, JS.streq.
  destruct (String.eqb_spec fit "height") as [Eh|Nh].
  - subst fit. simpl.
    destruct (JS.gt (vy size) 0) eqn:G.
    + apply gt_true in G. rewrite jsdiv_nonzero by (intros Hz; lra).
      eexists. split; [reflexivity|].
      repeat split; intros; try reflexivity; try discriminate; contradiction.
    + apply gt_false in G. exists 1. split; [reflexivity|].
      repeat split; intros; try reflexivity; try discriminate;
        try contradiction; lra.
  - simpl. destruct (String.eqb_spec fit "width") as [Ew|Nw].
    + subst fit. simpl.
      destruct (JS.gt (vx size) 0) eqn:G.
      * apply gt_true in G. rewrite jsdiv_nonzero by (intros Hz; lra).
        eexists. split; [reflexivity|].
        repeat split; intros; try reflexivity; try discriminate; contradiction.
      * apply gt_false in G. exists 1. split; [reflexivity|].
        repeat split; intros; try reflexivity; try discriminate;
          try contradiction; lra.
    + simpl. exists 1. split; [reflexivity|].
      repeat split; intros; try reflexivity; contradiction.
Qed.

Lemma fitScale_positive fit fitAmount rect size s :
  Loader.fitScale fit fitAmount rect size = Some s ->
  0 < fitAmount -> 0 < width rect -> 0 < height rect -> 0 < s.
Proof.
  unfold Loader.fitScale. intros H Hf Hw Hh.
  destruct (JS.streq fit "height" && JS.gt (vy size) 0) eqn:E1;
    [|destruct (JS.streq fit "width" && JS.gt (vx size) 0) eqn:E2].
  - apply andb_true_iff in E1 as [_ G]. apply gt_true in G.
    apply jsdiv_Some in H as [_ ->].
    apply Qlt_shift_div_l; [exact G|].
    rewrite Qmult_0_l. apply Qmult_lt_0_compat; assumption.
  - apply andb_true_iff in E2 as [_ G]. apply gt_true in G.
    apply jsdiv_Some in H as [_ ->].
    apply Qlt_shift_div_l; [exact G|].
    rewrite Qmult_0_l. apply Qmult_lt_0_compat; assumption.
  - injection H as <-. reflexivity.
Qed.

(** A header rectangle without area: the overlay module marks its canvas
    not displayed and changes nothing else. *)
Lemma loader_layout_hides_empty_rect rect size g h :
  Loader.enabled h = true -> Loader.headerEl h = true ->
  Loader.object g <> None ->
  ~ (0 < width rect /\ 0 < height rect) ->
  Loader.updateTopGLBHeaderCanvasLayout rect size g h =
    Some (Loader.mkHeader (Loader.enabled h) (Loader.rendererSize h)
            (Loader.camera h) (Loader.withDisplay "none" (Loader.canvas h))
            (Loader.pivotPosition h) (Loader.pivotScale h) (Loader.headerEl h)
            (Loader.fit h) (Loader.fitAmount h) (Loader.offsetX h)
            (Loader.offsetY h) (Loader.needsLayout h)).
Proof.
  intros He Hel Hobj Hrect. unfold Loader.updateTopGLBHeaderCanvasLayout.
  rewrite He, Hel. destruct (Loader.object g); [|contradiction].
  cbv zeta.
  destruct (JS.gt (width rect) 0 && JS.gt (height rect) 0) eqn:V.
  - apply rect_visible_true in V. contradiction.
  - reflexivity.
Qed.

(** A header rectangle with area: the canvas is displayed, placed on the
    rectangle, and the pivot gets the scale of lines 249-251. *)
Lemma loader_layout_shows_rect rect size g h :
  Loader.enabled h = true -> Loader.headerEl h = true ->
  Loader.object g <> None ->
  0 < width rect -> 0 < height rect ->
  exists h' s,
    Loader.updateTopGLBHeaderCanvasLayout rect size g h = Some h' /\
    Loader.fitScale (Loader.fit h) (Loader.fitAmount h) rect size = Some s /\
    Loader.pivotScale h' = s /\
    Loader.display (Loader.canvas h') = "block"%string /\
    Loader.rendererSize h' = (width rect, height rect) /\
    Loader.needsLayout h' = false.
Proof.
  intros He Hel Hobj Hw Hh. unfold Loader.updateTopGLBHeaderCanvasLayout.
  rewrite He, Hel. destruct (Loader.object g); [|contradiction].
  cbv zeta.
  assert (V : JS.gt (width rect) 0 && JS.gt (height rect) 0 = true)
    by (apply rect_visible_true; split; assumption).
  rewrite V. simpl.
  destruct (fitScale_cases (Loader.fit h) (Loader.fitAmount h) rect size)
    as (s & Hs & _).
  rewrite Hs. simpl. eexists. exists s. repeat split; reflexivity || exact Hs.
Qed.

(** C9: the page script's layout has no test for an empty rectangle.  With
    the header rectangle all zero it divides [0 / 0] for the camera aspect;
    with width 0 and height 50 it completes, the canvas stays displayed, and
    the renderer is resized to 0 by 50. *)
Theorem page_layout_empty_rect :
  forall tanHalfFov : Q -> Q,
    Main.updateTopGLBHeaderCanvasLayout tanHalfFov (mkRect 0 0 0 0) attachedTop
      = None /\
    (~ 2 * tanHalfFov 60 * 5 == 0 ->
     exists t',
       Main.updateTopGLBHeaderCanvasLayout tanHalfFov (mkRect 0 0 0 50)
         attachedTop = Some t' /\
       Main.canvasDisplayed t' = true /\
       Main.renderer t' = Some (0, 50) /\
       Main.renderer attachedTop = Some (300, 150)).
Proof.
  intros tanHalfFov. split.
  - reflexivity.
  - intros Hh. unfold Main.updateTopGLBHeaderCanvasLayout. simpl.
    rewrite (jsdiv_nonzero _ _ Hh). simpl.
    eexists. split; [reflexivity|]. simpl. auto.
Qed.

(** C10: in the overlay module the pivot's scale comes from a guarded
    quotient.  With the overlay enabled and a header rectangle that has
    area, the layout completes and the pivot gets a scale [s] which is
    [(rect dimension * fitAmount) / (bounding-box size along the fit axis)]
    when that size is positive and 1 otherwise (also for a fit that is
    neither height nor width); no quotient has a zero denominator, and [s]
    is positive when [fitAmount] is. *)
Theorem header_scale_guarded_division :
  forall (rect : DOMRect) (size : Vector3) (g : Loader.TopGLB)
         (h : Loader.HeaderCanvas),
    Loader.enabled h = true -> Loader.headerEl h = true ->
    Loader.object g <> None ->
    0 < width rect -> 0 < height rect ->
    exists h' s,
      Loader.updateTopGLBHeaderCanvasLayout rect size g h = Some h' /\
      Loader.pivotScale h' = s /\
      (Loader.fit h = "height"%string -> 0 < vy size ->
         s = height rect * Loader.fitAmount h / vy size) /\
      (Loader.fit h = "height"%string -> ~ 0 < vy size -> s = 1) /\
      (Loader.fit h = "width"%string -> 0 < vx size ->
         s = width rect * Loader.fitAmount h / vx size) /\
      (Loader.fit h = "width"%string -> ~ 0 < vx size -> s = 1) /\
      (Loader.fit h <> "height"%string -> Loader.fit h <> "width"%string ->
         s = 1) /\
      (0 < Loader.fitAmount h -> 0 < s).
Proof.
  intros rect size g h He Hel Hobj Hw Hh.
  destruct (loader_layout_shows_rect rect size g h He Hel Hobj Hw Hh)
    as (h' & s & Hlay & Hs & Hp & _).
  destruct (fitScale_cases (Loader.fit h) (Loader.fitAmount h) rect size)
    as (s' & Hs' & C1 & C2 & C3 & C4 & C5).
  assert (s' = s) by congruence. subst s'.
  exists h', s. repeat split; try assumption.
  intros Hf. eapply fitScale_positive; eauto.
Qed.

Lemma header_scale_guarded_division_witness :
  exists h' s,
    Loader.updateTopGLBHeaderCanvasLayout
      (mkRect 0 0 800 100) (V3 2 4 1) loadedTopGLB enabledHeader = Some h' /\
    Loader.pivotScale h' = s /\
    (Loader.fit enabledHeader = "height"%string -> 0 < vy (V3 2 4 1) ->
       s = height (mkRect 0 0 800 100) * Loader.fitAmount enabledHeader
           / vy (V3 2 4 1)) /\
    (Loader.fit enabledHeader = "height"%string -> ~ 0 < vy (V3 2 4 1) ->
       s = 1) /\
    (Loader.fit enabledHeader = "width"%string -> 0 < vx (V3 2 4 1) ->
       s = width (mkRect 0 0 800 100) * Loader.fitAmount enabledHeader
           / vx (V3 2 4 1)) /\
    (Loader.fit enabledHeader = "width"%string -> ~ 0 < vx (V3 2 4 1) ->
       s = 1) /\
    (Loader.fit enabledHeader <> "height"%string ->
     Loader.fit enabledHeader <> "width"%string -> s = 1) /\
    (0 < Loader.fitAmount enabledHeader -> 0 < s).
Proof.
  apply (header_scale_guarded_division
           (mkRect 0 0 800 100) (V3 2 4 1) loadedTopGLB enabledHeader);
    try reflexivity.
  discriminate.
Defined.

(** The overlay module's layout always completes: its only quotients are
    the guarded ones. *)
Lemma loader_layout_total rect size g h :
  is_Some (Loader.updateTopGLBHeaderCanvasLayout rect size g h).
Proof.
  unfold Loader.updateTopGLBHeaderCanvasLayout.
  destruct (Loader.enabled h), (Loader.headerEl h), (Loader.object g);
    eauto.
  cbv zeta.
  destruct (JS.gt (width rect) 0 && JS.gt (height rect) 0); simpl; eauto.
  destruct (fitScale_cases (Loader.fit h) (Loader.fitAmount h) rect size)
    as (s & -> & _).
  simpl. eauto.
Qed.

(** ** Further properties of the two scripts *)

(** X2: the overlay module hides its canvas on a header rectangle without
    area and changes nothing else; the next layout with a rectangle that has
    area displays the canvas again, sized to the rectangle, with the scale
    recomputed. *)
Theorem loader_layout_hides_then_recovers :
  forall (rect0 rect1 : DOMRect) (size0 size1 : Vector3) (g : Loader.TopGLB)
         (h : Loader.HeaderCanvas),
    Loader.enabled h = true -> Loader.headerEl h = true ->
    Loader.object g <> None ->
    width rect0 == 0 \/ height rect0 == 0 ->
    0 < width rect1 -> 0 < height rect1 ->
    exists h0 h1 s,
      Loader.updateTopGLBHeaderCanvasLayout rect0 size0 g h = Some h0 /\
      h0 = Loader.mkHeader (Loader.enabled h) (Loader.rendererSize h)
             (Loader.camera h) (Loader.withDisplay "none" (Loader.canvas h))
             (Loader.pivotPosition h) (Loader.pivotScale h)
             (Loader.headerEl h) (Loader.fit h) (Loader.fitAmount h)
             (Loader.offsetX h) (Loader.offsetY h) (Loader.needsLayout h) /\
      Loader.updateTopGLBHeaderCanvasLayout rect1 size1 g h0 = Some h1 /\
      Loader.display (Loader.canvas h1) = "block"%string /\
      Loader.rendererSize h1 = (width rect1, height rect1) /\
      Loader.fitScale (Loader.fit h) (Loader.fitAmount h) rect1 size1
        = Some s /\
      Loader.pivotScale h1 = s.
Proof.
  intros rect0 rect1 size0 size1 g h He Hel Hobj Hzero Hw Hh.
  assert (Hn : ~ (0 < width rect0 /\ 0 < height rect0))
    by (intros [? ?]; destruct Hzero; lra).
  pose proof (loader_layout_hides_empty_rect rect0 size0 g h He Hel Hobj Hn)
    as H0.
  set (h0 := Loader.mkHeader _ _ _ _ _ _ _ _ _ _ _ _) in H0.
  destruct (loader_layout_shows_rect rect1 size1 g h0 He Hel Hobj Hw Hh)
    as (h1 & s & H1 & Hs & Hp & Hd & Hr & _).
  exists h0, h1, s. repeat split; assumption.
Qed.

Lemma loader_layout_hides_then_recovers_witness :
  exists h0 h1 s,
    Loader.updateTopGLBHeaderCanvasLayout
      (mkRect 0 0 0 100) (V3 2 4 1) loadedTopGLB enabledHeader = Some h0 /\
    h0 = Loader.mkHeader (Loader.enabled enabledHeader)
           (Loader.rendererSize enabledHeader) (Loader.camera enabledHeader)
           (Loader.withDisplay "none" (Loader.canvas enabledHeader))
           (Loader.pivotPosition enabledHeader)
           (Loader.pivotScale enabledHeader) (Loader.headerEl enabledHeader)
           (Loader.fit enabledHeader) (Loader.fitAmount enabledHeader)
           (Loader.offsetX enabledHeader) (Loader.offsetY enabledHeader)
           (Loader.needsLayout enabledHeader) /\
    Loader.updateTopGLBHeaderCanvasLayout
      (mkRect 0 0 800 100) (V3 2 4 1) loadedTopGLB h0 = Some h1 /\
    Loader.display (Loader.canvas h1) = "block"%string /\
    Loader.rendererSize h1
      = (width (mkRect 0 0 800 100), height (mkRect 0 0 800 100)) /\
    Loader.fitScale (Loader.fit enabledHeader)
      (Loader.fitAmount enabledHeader) (mkRect 0 0 800 100) (V3 2 4 1)
      = Some s /\
    Loader.pivotScale h1 = s.
Proof.
  apply (loader_layout_hides_then_recovers
           (mkRect 0 0 0 100) (mkRect 0 0 800 100) (V3 2 4 1) (V3 2 4 1)
           loadedTopGLB enabledHeader); try reflexivity.
  - discriminate.
  - left. reflexivity.
Defined.

(** X1: the overlay module's [updateTopGLB] always completes, its target
    opacity is in [[0,1]] for every scroll value, and the eased opacity
    stays in [[0,1]] when the elapsed time and the speed are not negative. *)
Theorem loader_opacity_in_unit_interval :
  forall (delta raw : Q) (options : Loader.Options) (g : Loader.TopGLB),
    0 <= Loader.opacity g <= 1 ->
    0 <= delta * default 8 (Loader.lerpSpeed options) ->
    (exists o, Loader.targetOpacity raw (default 0.01 (Loader.showAt options))
                 (default 0.12 (Loader.fullAt options)) = Some o /\
               0 <= o <= 1) /\
    (exists g', Loader.updateTopGLB delta raw options g = Some g' /\
                0 <= Loader.opacity g' <= 1).
Proof.
  intros delta raw options g Hop Hk. split.
  - apply loader_targetOpacity_range.
  - apply loader_opacity_invariant; assumption.
Qed.

Lemma loader_opacity_in_unit_interval_witness :
  (exists o, Loader.targetOpacity 1.5 0.01 0.12 = Some o /\ 0 <= o <= 1) /\
  (exists g', Loader.updateTopGLB 0.016 1.5 (Loader.mkOptions None None None)
                loadedTopGLB = Some g' /\
              0 <= Loader.opacity g' <= 1).
Proof.
  apply (loader_opacity_in_unit_interval 0.016 1.5
           (Loader.mkOptions None None None) loadedTopGLB).
  - split; vm_compute; discriminate.
  - vm_compute; discriminate.
Defined.

(** X3: the crystal's opacity is in [[0,1]] whenever the scroll fraction is
    not negative, however large it is. *)
Theorem crystal_opacity_in_unit_interval :
  forall s : Q, 0 <= s -> 0 <= 1 - Main.animProgress s <= 1.
Proof. exact crystal_opacity_range. Qed.

Lemma crystal_opacity_in_unit_interval_witness :
  0 <= 1 - Main.animProgress 1.5 <= 1.
Proof.
  apply (crystal_opacity_in_unit_interval 1.5). vm_compute; discriminate.
Defined.

(** X4: the easing loop writes [lerp(current[j], target[j], 0.07)] into
    every slot [j] of the first [particleCount] particles, each slot once, and
    leaves the length of the buffer as it was. *)
Theorem easing_loop_eases_each_slot_once :
  forall (src dst current : list Q) (p : Q) (j : nat),
    (j < length current)%nat ->
    (j < Main.particleCount * 3)%nat ->
    Main.easeParticles src dst p current !! j
      = Some (spec_eased src dst p current j) /\
    length (Main.easeParticles src dst p current) = length current.
Proof.
  intros src dst current p j Hj Hn. split.
  - rewrite easeParticles_lookup by assumption.
    now rewrite decide_True by assumption.
  - unfold Main.easeParticles. now rewrite easeLoop_length.
Qed.

Lemma easing_loop_eases_each_slot_once_witness :
  Main.easeParticles [0; 0; 0] [2; 4; 6] 0.5 [1; 7; 7] !! 1%nat
    = Some (spec_eased [0; 0; 0] [2; 4; 6] 0.5 [1; 7; 7] 1) /\
  length (Main.easeParticles [0; 0; 0] [2; 4; 6] 0.5 [1; 7; 7])
    = length [1; 7; 7].
Proof.
  apply (easing_loop_eases_each_slot_once [0; 0; 0] [2; 4; 6] [1; 7; 7] 0.5 1).
  - simpl. lia.
  - unfold Main.particleCount. lia.
Defined.

(** ** The inputs above on binary64 numbers *)

(** On binary64 numbers too, line 105 gives an opacity above 1 at the
    scroll fractions 0.5 and 1.5. *)
Lemma binary64_overlay_opacity_above_one :
  PrimFloat.ltb 1%float
    (Binary64.overlayOpacity 0.5%float Binary64.showAt Binary64.fullAt) = true /\
  PrimFloat.ltb 1%float
    (Binary64.overlayOpacity 1.5%float Binary64.showAt Binary64.fullAt) = true.
Proof. split; vm_compute; reflexivity. Qed.

(** On binary64 numbers the aspect of an all-zero rectangle is [NaN], and
    that of a rectangle with height zero only is infinite. *)
Lemma binary64_aspect_of_empty_rect :
  PrimFloat.is_nan (Binary64.aspect 0%float 0%float) = true /\
  PrimFloat.is_infinity (Binary64.aspect 800%float 0%float) = true.
Proof. split; vm_compute; reflexivity. Qed.

(** ** The camera path across the two segments *)



(** ** The crystal's fade as a function of the scroll fraction *)

Lemma animProgress_low s : s < 0.2 -> Main.animProgress s == 5 * s.
Proof.
  intros H. unfold Main.animProgress.
  assert (Hq : s / 0.2 == 5 * s) by (field).
  destruct (Qmin_cases (s / 0.2) 1) as [[H1 E]|[H1 E]]; rewrite E; lra.
Qed.

Lemma animProgress_high s : 0.2 <= s -> Main.animProgress s == 1.
Proof.
  intros H. unfold Main.animProgress.
  assert (Hq : s / 0.2 == 5 * s) by (field).
  destruct (Qmin_cases (s / 0.2) 1) as [[H1 E]|[H1 E]]; rewrite E; lra.
Qed.

Lemma animProgress_mono s s' :
  s <= s' -> Main.animProgress s <= Main.animProgress s'.
Proof.
  intros H.
  destruct (Qlt_le_dec s 0.2) as [L|L], (Qlt_le_dec s' 0.2) as [L'|L'].
  - rewrite (animProgress_low s L), (animProgress_low s' L'). lra.
  - rewrite (animProgress_low s L), (animProgress_high s' L'). lra.
  - lra.
  - rewrite (animProgress_high s L), (animProgress_high s' L'). lra.
Qed.

(** X6: the crystal fades linearly over the first fifth of the page and is
    gone from there on.  For [s < 0.2] every mesh has opacity [1 - 5 s] and
    the crystal is visible; for [s >= 0.2] every mesh has opacity 0 and the
    crystal is not visible; and scrolling further down never makes a mesh
    more opaque. *)
Theorem crystal_fade_profile :
  forall (s elapsedTime : Q) (c : Main.Crystal) (i : nat) (n : Main.MeshNode),
    Main.nodes c !! i = Some n -> Main.isMesh n = true ->
    exists n',
      Main.nodes (Main.fadeCrystal s elapsedTime c) !! i = Some n' /\
      (s < 0.2 ->
         Main.materialOpacity n' == 1 - 5 * s /\
         Main.crystalVisible (Main.fadeCrystal s elapsedTime c) = true) /\
      (0.2 <= s ->
         Main.materialOpacity n' == 0 /\
         Main.crystalVisible (Main.fadeCrystal s elapsedTime c) = false) /\
      (forall s' n'', s <= s' ->
         Main.nodes (Main.fadeCrystal s' elapsedTime c) !! i = Some n'' ->
         Main.materialOpacity n'' <= Main.materialOpacity n').
Proof.
  intros s elapsedTime c i n Hn Hmesh.
  destruct (fadeCrystal_mesh s elapsedTime c i n Hn Hmesh)
    as (n' & Hn' & _ & Hop).
  exists n'. split; [exact Hn'|]. rewrite Hop. repeat split.
  - rewrite (animProgress_low s H). lra.
  - simpl. apply lt_true. rewrite (animProgress_low s H). lra.
  - rewrite (animProgress_high s H). lra.
  - simpl. apply lt_false. rewrite (animProgress_high s H). lra.
  - intros s' n'' Hs Hn''.
    destruct (fadeCrystal_mesh s' elapsedTime c i n Hn Hmesh)
      as (m & Hm & _ & Hop').
    assert (m = n'') by congruence. subst m. rewrite Hop'.
    pose proof (animProgress_mono s s' Hs). lra.
Qed.

Lemma crystal_fade_profile_witness :
  exists n',
    Main.nodes (Main.fadeCrystal 0.1 0
                  (Main.mkCrystal [Main.mkNode true 1] true 0)) !! 0%nat
      = Some n' /\
    (0.1 < 0.2 ->
       Main.materialOpacity n' == 1 - 5 * 0.1 /\
       Main.crystalVisible (Main.fadeCrystal 0.1 0
                              (Main.mkCrystal [Main.mkNode true 1] true 0))
         = true) /\
    (0.2 <= 0.1 ->
       Main.materialOpacity n' == 0 /\
       Main.crystalVisible (Main.fadeCrystal 0.1 0
                              (Main.mkCrystal [Main.mkNode true 1] true 0))
         = false) /\
    (forall s' n'', 0.1 <= s' ->
       Main.nodes (Main.fadeCrystal s' 0
                     (Main.mkCrystal [Main.mkNode true 1] true 0)) !! 0%nat
         = Some n'' ->
       Main.materialOpacity n'' <= Main.materialOpacity n').
Proof.
  apply (crystal_fade_profile 0.1 0
           (Main.mkCrystal [Main.mkNode true 1] true 0) 0
           (Main.mkNode true 1)); reflexivity.
Defined.

(** ** The page script's overlay: setting up, fading, scaling *)

(** Reduce the option monad and record projections, leaving rational
    arithmetic as it is written. *)
Tactic Notation "bind_simpl" :=
  cbn -[Qmult Qdiv Qplus Qminus Qopp Qinv Qeq_bool Qeq Qle Qlt Qmin Qmax
       JS.jsdiv Main.easeParticles].
Tactic Notation "bind_simpl" "in" hyp(H) :=
  cbn -[Qmult Qdiv Qplus Qminus Qopp Qinv Qeq_bool Qeq Qle Qlt Qmin Qmax
       JS.jsdiv Main.easeParticles] in H.

(** ** The page script's overlay: setting up, fading, scaling *)

(** The overlay state used above is the one the page script builds at
    lines 258-263. *)
Lemma attachedTop_built :
  attachedTop =
    Main.setTopGLBHeaderSpin 0.18
      (Main.topGLBUseHeaderCanvas true
         (Main.mkConfigArg (Some "height"%string) (Some 0.55))
         (Main.setTopGLBScrollProgressGetter (fun scrollProgress => scrollProgress)
            (Main.loadTopGLB (Some 1) Main.initialTop))).
Proof. reflexivity. Qed.

Lemma quotient_sign a b : 0 < b -> (0 < a / b <-> 0 < a).
Proof.
  intros Hb. split; intros H.
  - assert (E : a == a / b * b) by (field; lra).
    rewrite E. apply Qmult_lt_0_compat; assumption.
  - apply Qlt_shift_div_l; lra.
Qed.

Lemma page_overlayOpacity_value scroll showAt fullAt :
  showAt < fullAt ->
  exists o, Main.overlayOpacity scroll showAt fullAt = Some o /\
    (0 < o <-> showAt < scroll) /\
    (scroll <= showAt -> o == 0) /\
    (showAt <= scroll -> o == (scroll - showAt) / (fullAt - showAt)).
Proof.
  intros Hlt. unfold Main.overlayOpacity.
  rewrite jsdiv_nonzero by (intros Hz; lra). bind_simpl.
  eexists. split; [reflexivity|].
  pose proof (quotient_sign (scroll - showAt) (fullAt - showAt)
                ltac:(lra)) as Hs.
  assert (Hq0 : scroll == showAt ->
                (scroll - showAt) / (fullAt - showAt) == 0)
    by (intros E; rewrite E; field; lra).
  set (q := (scroll - showAt) / (fullAt - showAt)) in *.
  destruct (Qlt_le_dec showAt scroll) as [L|L].
  - assert (0 < q) by (apply Hs; lra).
    destruct (Qmax_cases 0 q) as [[? E]|[? E]]; rewrite E;
      repeat split; intros; lra.
  - assert (~ 0 < q) by (intros Hq; apply Hs in Hq; lra).
    destruct (Qmax_cases 0 q) as [[? E]|[? E]]; rewrite E;
      repeat split; intros; try lra.
    all: assert (q == 0) by (apply Hq0; lra); lra.
Qed.

(** X10: in the page script, with its model loaded and [showAt < fullAt],
    the overlay is drawn after [updateTopGLB] exactly when a renderer is
    attached and the scroll value is above [showAt].  At or below [showAt]
    the model is hidden, keeps its rotation and the canvas opacity is 0;
    above it the model is visible, turned to [headerSpin * now / 1000], and
    the canvas opacity is [(scroll - showAt) / (fullAt - showAt)]. *)
Theorem page_overlay_drawn_iff_past_showAt :
  forall (now scrollProgress showAt fullAt : Q) (t : Main.TopGLBState)
         (m : Main.Model),
    Main.model t = Some m ->
    showAt < fullAt ->
    let scroll := Main.scrollGetter t scrollProgress in
    exists t',
      Main.updateTopGLB now scrollProgress showAt fullAt t = Some t' /\
      (Main.renderTopGLBHeaderCanvas t' = true <->
       is_Some (Main.renderer t) /\ showAt < scroll) /\
      (scroll <= showAt ->
       Main.model t' =
         Some (Main.mkModel (Main.scale m) false (Main.rotation_y m)) /\
       (is_Some (Main.renderer t) -> Main.canvasOpacity t' == 0)) /\
      (showAt < scroll ->
       Main.model t' =
         Some (Main.mkModel (Main.scale m) true
                            (Main.headerSpin t * now / 1000)) /\
       (is_Some (Main.renderer t) ->
        Main.canvasOpacity t' == (scroll - showAt) / (fullAt - showAt))).
Proof.
  intros now scrollProgress showAt fullAt t m Hm Hlt scroll.
  unfold Main.updateTopGLB. rewrite Hm. cbv zeta. fold scroll.
  destruct (page_overlayOpacity_value scroll showAt fullAt Hlt)
    as (o & -> & Hpos & Hzero & Hramp).
  bind_simpl. eexists. split; [reflexivity|].
  unfold Main.renderTopGLBHeaderCanvas. bind_simpl.
  destruct (JS.gt o 0) eqn:G;
    [apply gt_true in G | apply gt_false in G].
  - assert (L : showAt < scroll) by (apply Hpos; exact G).
    split; [|split].
    + destruct (Main.renderer t) as [sz|].
      * split; [intros _; split; [eauto | exact L] | reflexivity].
      * split; [discriminate | intros [[? ?] _]; discriminate].
    + intros H. lra.
    + intros _. split; [reflexivity|].
      intros [sz Hr]. rewrite Hr. apply Hramp. lra.
  - assert (L : scroll <= showAt).
    { apply Qnot_lt_le. intros H. apply Hpos in H. lra. }
    split; [|split].
    + destruct (Main.renderer t) as [sz|]; (split; [discriminate|]);
        intros [_ H]; lra.
    + intros _. split; [reflexivity|].
      intros [sz Hr]. rewrite Hr. apply Hzero. exact L.
    + intros H. lra.
Qed.

Lemma page_overlay_drawn_iff_past_showAt_witness :
  let scroll := Main.scrollGetter attachedTop 0.05 in
  exists t',
    Main.updateTopGLB 1000 0.05 0.01 0.12 attachedTop = Some t' /\
    (Main.renderTopGLBHeaderCanvas t' = true <->
     is_Some (Main.renderer attachedTop) /\ 0.01 < scroll) /\
    (scroll <= 0.01 ->
     Main.model t' = Some (Main.mkModel (Main.scale (Main.mkModel 1 true 0))
                             false (Main.rotation_y (Main.mkModel 1 true 0))) /\
     (is_Some (Main.renderer attachedTop) -> Main.canvasOpacity t' == 0)) /\
    (0.01 < scroll ->
     Main.model t' = Some (Main.mkModel (Main.scale (Main.mkModel 1 true 0))
                             true (Main.headerSpin attachedTop * 1000 / 1000)) /\
     (is_Some (Main.renderer attachedTop) ->
      Main.canvasOpacity t' == (scroll - 0.01) / (0.12 - 0.01))).
Proof.
  apply (page_overlay_drawn_iff_past_showAt 1000 0.05 0.01 0.12 attachedTop
           (Main.mkModel 1 true 0)); reflexivity.
Defined.

Lemma aspect_nonzero (rect : DOMRect) :
  ~ width rect == 0 -> ~ height rect == 0 ->
  ~ width rect / height rect == 0.
Proof.
  intros Hw Hh Hz. apply Hw.
  assert (E : width rect == width rect / height rect * height rect)
    by (field; exact Hh).
  rewrite E, Hz. ring.
Qed.

(** The state the page script's layout leaves when no divisor is zero. *)
Lemma page_layout_value tanHalfFov rect t sz cam m :
  Main.renderer t = Some sz -> Main.headerEl t = true ->
  Main.tcamera t = Some cam -> Main.model t = Some m ->
  ~ 2 * tanHalfFov (Main.fov cam) * Main.position_z cam == 0 ->
  ~ width rect == 0 -> ~ height rect == 0 ->
  Main.updateTopGLBHeaderCanvasLayout tanHalfFov rect t =
    Some (Main.mkTop
            (Some (Main.mkTopCamera (Main.fov cam)
                     (width rect / height rect) (Main.position_z cam)))
            (Some (width rect, height rect))
            (Some (Main.mkModel
                     (if JS.streq (Main.fit (Main.config t)) "height"
                      then height rect * Main.fitAmount (Main.config t)
                           / (2 * tanHalfFov (Main.fov cam)
                              * Main.position_z cam)
                      else width rect * Main.fitAmount (Main.config t)
                           / (width rect / height rect))
                     (Main.visible m) (Main.rotation_y m)))
            (Main.headerEl t) (Main.canvasOpacity t) (Main.canvasDisplayed t)
            (Main.config t) (Main.scrollGetter t) (Main.headerSpin t)).
Proof.
  intros Hr Hel Hc Hm Hfr Hw Hh.
  unfold Main.updateTopGLBHeaderCanvasLayout. rewrite Hr, Hel, Hc, Hm.
  bind_simpl. rewrite (jsdiv_nonzero _ _ Hh). bind_simpl.
  destruct (JS.streq (Main.fit (Main.config t)) "height").
  - rewrite (jsdiv_nonzero _ _ Hfr). reflexivity.
  - rewrite (jsdiv_nonzero _ _ (aspect_nonzero rect Hw Hh)). reflexivity.
Qed.

(** X11: in the page script the header's width never reaches the model's
    scale.  For the fit ['height'] the scale is
    [rect.height * fitAmount / (2 * tan(fov / 2) * z)]; for any other fit the
    quotient by the aspect cancels the width and the scale is
    [rect.height * fitAmount].  Two headers of the same height give the same
    scale whatever their widths. *)
Theorem page_layout_scale_ignores_width :
  forall (tanHalfFov : Q -> Q) (rect rect' : DOMRect) (t : Main.TopGLBState)
         (sz : Q * Q) (cam : Main.TopCamera) (m : Main.Model),
    Main.renderer t = Some sz -> Main.headerEl t = true ->
    Main.tcamera t = Some cam -> Main.model t = Some m ->
    ~ 2 * tanHalfFov (Main.fov cam) * Main.position_z cam == 0 ->
    ~ width rect == 0 -> ~ width rect' == 0 ->
    ~ height rect == 0 -> height rect' == height rect ->
    exists t1 t1' m1 m1',
      Main.updateTopGLBHeaderCanvasLayout tanHalfFov rect t = Some t1 /\
      Main.updateTopGLBHeaderCanvasLayout tanHalfFov rect' t = Some t1' /\
      Main.model t1 = Some m1 /\ Main.model t1' = Some m1' /\
      Main.scale m1 == Main.scale m1' /\
      (Main.fit (Main.config t) = "height"%string ->
       Main.scale m1 ==
         height rect * Main.fitAmount (Main.config t)
         / (2 * tanHalfFov (Main.fov cam) * Main.position_z cam)) /\
      (Main.fit (Main.config t) <> "height"%string ->
       Main.scale m1 == height rect * Main.fitAmount (Main.config t)).
Proof.
  intros tanHalfFov rect rect' t sz cam m Hr Hel Hc Hm Hfr Hw Hw' Hh Hh'.
  assert (Hh2 : ~ height rect' == 0) by (rewrite Hh'; exact Hh).
  rewrite (page_layout_value tanHalfFov rect t sz cam m) by assumption.
  rewrite (page_layout_value tanHalfFov rect' t sz cam m) by assumption.
  do 4 eexists.
  split; [reflexivity|]. split; [reflexivity|].
  split; [reflexivity|]. split; [reflexivity|].
  cbn [Main.scale]. unfold JS.streq.
  destruct (String.eqb_spec (Main.fit (Main.config t)) "height") as [Ef|Ef].
  - split; [|split].
    + rewrite Hh'. reflexivity.
    + intros _. reflexivity.
    + intros N. contradiction.
  - split; [|split].
    + rewrite <- Hh'. field. repeat split; assumption.
    + intros E. contradiction.
    + intros _. field. split; assumption.
Qed.

Lemma page_layout_scale_ignores_width_witness :
  exists t1 t1' m1 m1',
    Main.updateTopGLBHeaderCanvasLayout (fun _ => 1) (mkRect 0 0 800 100)
      attachedTop = Some t1 /\
    Main.updateTopGLBHeaderCanvasLayout (fun _ => 1) (mkRect 0 0 400 100)
      attachedTop = Some t1' /\
    Main.model t1 = Some m1 /\ Main.model t1' = Some m1' /\
    Main.scale m1 == Main.scale m1' /\
    (Main.fit (Main.config attachedTop) = "height"%string ->
     Main.scale m1 ==
       height (mkRect 0 0 800 100) * Main.fitAmount (Main.config attachedTop)
       / (2 * (fun _ : Q => 1) (Main.fov (Main.mkTopCamera 60 1 5))
          * Main.position_z (Main.mkTopCamera 60 1 5))) /\
    (Main.fit (Main.config attachedTop) <> "height"%string ->
     Main.scale m1 ==
       height (mkRect 0 0 800 100) * Main.fitAmount (Main.config attachedTop)).
Proof.
  apply (page_layout_scale_ignores_width (fun _ => 1) (mkRect 0 0 800 100)
           (mkRect 0 0 400 100) attachedTop (300, 150)
           (Main.mkTopCamera 60 1 5) (Main.mkModel 1 true 0));
    try reflexivity; vm_compute; discriminate.
Defined.

(** X12: in the page script, when the header element is not found the
    overlay is switched off without an error: every later layout leaves the
    state as it is, and every later [updateTopGLB] leaves the canvas opacity
    alone and the overlay undrawn, whatever the scroll position. *)
Theorem page_overlay_disabled_without_header :
  forall (tanHalfFov : Q -> Q) (arg : Main.ConfigArg) (t0 : Main.TopGLBState)
         (rect : DOMRect) (now scrollProgress showAt fullAt : Q),
    Main.renderer t0 = None ->
    let t := Main.topGLBUseHeaderCanvas false arg t0 in
    Main.updateTopGLBHeaderCanvasLayout tanHalfFov rect t = Some t /\
    Main.renderTopGLBHeaderCanvas t = false /\
    (forall t', Main.updateTopGLB now scrollProgress showAt fullAt t = Some t' ->
       Main.renderTopGLBHeaderCanvas t' = false /\
       Main.canvasOpacity t' = Main.canvasOpacity t0 /\
       Main.updateTopGLBHeaderCanvasLayout tanHalfFov rect t' = Some t').
Proof.
  intros tanHalfFov arg t0 rect now scrollProgress showAt fullAt Hr t.
  subst t. unfold Main.topGLBUseHeaderCanvas. cbn [negb].
  unfold Main.updateTopGLBHeaderCanvasLayout, Main.renderTopGLBHeaderCanvas,
    Main.updateTopGLB.
  cbn [Main.renderer Main.headerEl Main.model Main.canvasOpacity].
  rewrite Hr. split; [reflexivity|]. split; [reflexivity|].
  intros t'. destruct (Main.model t0) as [m|].
  - cbv zeta.
    destruct (Main.overlayOpacity _ showAt fullAt) as [o|];
      bind_simpl; [|discriminate].
    intros [= <-]. cbn [Main.renderer Main.canvasOpacity Main.headerEl].
    auto.
  - intros [= <-]. cbn [Main.renderer Main.canvasOpacity Main.headerEl].
    rewrite ?Hr. auto.
Qed.

Lemma page_overlay_disabled_without_header_witness :
  let t := Main.topGLBUseHeaderCanvas false (Main.mkConfigArg None None)
             (Main.loadTopGLB None Main.initialTop) in
  Main.updateTopGLBHeaderCanvasLayout (fun _ => 1) (mkRect 0 0 800 100) t
    = Some t /\
  Main.renderTopGLBHeaderCanvas t = false /\
  (forall t', Main.updateTopGLB 0 0.5 0.01 0.12 t = Some t' ->
     Main.renderTopGLBHeaderCanvas t' = false /\
     Main.canvasOpacity t'
       = Main.canvasOpacity (Main.loadTopGLB None Main.initialTop) /\
     Main.updateTopGLBHeaderCanvasLayout (fun _ => 1) (mkRect 0 0 800 100) t'
       = Some t').
Proof.
  apply (page_overlay_disabled_without_header (fun _ => 1)
           (Main.mkConfigArg None None) (Main.loadTopGLB None Main.initialTop)
           (mkRect 0 0 800 100) 0 0.5 0.01 0.12).
  reflexivity.
Defined.

(** ** The pointer and the scroll position of the page script *)

(** X13: for a pointer inside a window of positive size the [mousemove]
    listener stores coordinates in [[-1, 1]]: x is [2 clientX / innerWidth - 1]
    and y is [1 - 2 clientY / innerHeight], so the top left corner of the
    window is [(-1, 1)] and the bottom right corner [(1, -1)]. *)
Theorem pointer_normalised :
  forall clientX clientY innerWidth innerHeight : Q,
    0 < innerWidth -> 0 < innerHeight ->
    0 <= clientX <= innerWidth -> 0 <= clientY <= innerHeight ->
    exists m,
      Main.onMouseMove clientX clientY innerWidth innerHeight = Some m /\
      Main.mouseX m == 2 * clientX / innerWidth - 1 /\
      Main.mouseY m == 1 - 2 * clientY / innerHeight /\
      -1 <= Main.mouseX m <= 1 /\ -1 <= Main.mouseY m <= 1 /\
      (clientX == 0 -> Main.mouseX m == -1) /\
      (clientY == 0 -> Main.mouseY m == 1) /\
      (clientX == innerWidth -> Main.mouseX m == 1) /\
      (clientY == innerHeight -> Main.mouseY m == -1).
Proof.
  intros clientX clientY innerWidth innerHeight Hw Hh [Hx0 Hx1] [Hy0 Hy1].
  unfold Main.onMouseMove.
  rewrite !jsdiv_nonzero by (intros Hz; lra). bind_simpl.
  eexists. split; [reflexivity|]. cbn [Main.mouseX Main.mouseY].
  assert (Ex : clientX / innerWidth * innerWidth == clientX) by (field; lra).
  assert (Ey : clientY / innerHeight * innerHeight == clientY) by (field; lra).
  assert (Ax : 0 <= clientX / innerWidth) by (apply Qle_shift_div_l; lra).
  assert (Bx : clientX / innerWidth <= 1) by (apply Qle_shift_div_r; lra).
  assert (Ay : 0 <= clientY / innerHeight) by (apply Qle_shift_div_l; lra).
  assert (By : clientY / innerHeight <= 1) by (apply Qle_shift_div_r; lra).
  split; [field; lra|]. split; [field; lra|].
  split; [split; lra|]. split; [split; lra|].
  split; [|split; [|split]]; intros E.
  - assert (Z : clientX / innerWidth == 0) by (rewrite E; field; lra). lra.
  - assert (Z : clientY / innerHeight == 0) by (rewrite E; field; lra). lra.
  - assert (Z : clientX / innerWidth == 1) by (rewrite E; field; lra). lra.
  - assert (Z : clientY / innerHeight == 1) by (rewrite E; field; lra). lra.
Qed.

Lemma pointer_normalised_witness :
  exists m,
    Main.onMouseMove 200 150 800 600 = Some m /\
    Main.mouseX m == 2 * 200 / 800 - 1 /\
    Main.mouseY m == 1 - 2 * 150 / 600 /\
    -1 <= Main.mouseX m <= 1 /\ -1 <= Main.mouseY m <= 1 /\
    (200 == 0 -> Main.mouseX m == -1) /\
    (150 == 0 -> Main.mouseY m == 1) /\
    (200 == 800 -> Main.mouseX m == 1) /\
    (150 == 600 -> Main.mouseY m == -1).
Proof.
  apply (pointer_normalised 200 150 800 600);
    try reflexivity; split; vm_compute; discriminate.
Defined.

Lemma pInterp_range s : 0 <= s <= 1 -> 0 <= Main.pInterp s <= 1.
Proof.
  intros [H0 H1]. destruct (Qlt_le_dec s 0.5) as [H|H].
  - rewrite (pInterp_low s H). split; lra.
  - rewrite (pInterp_high s H). split; lra.
Qed.

(** X14: when the page can scroll and the browser reports an offset within
    the scrollable extent, the page script's scroll listener stores a
    progress in [[0,1]] and changes nothing else; the blend parameter and
    the crystal opacity the next frame computes from it are then in
    [[0,1]] too. *)
Theorem page_scroll_progress_in_range :
  forall (scrollHeight innerHeight scrollY : Q) (p : Main.Page),
    0 < scrollHeight - innerHeight ->
    0 <= scrollY <= scrollHeight - innerHeight ->
    exists p',
      Main.onScroll scrollHeight innerHeight scrollY p = Some p' /\
      0 <= Main.scrollProgress p' <= 1 /\
      0 <= Main.pInterp (Main.scrollProgress p') <= 1 /\
      0 <= 1 - Main.animProgress (Main.scrollProgress p') <= 1 /\
      Main.camera p' = Main.camera p /\
      Main.worldCrystal p' = Main.worldCrystal p /\
      Main.positions p' = Main.positions p /\
      Main.topGLBState p' = Main.topGLBState p.
Proof.
  intros scrollHeight innerHeight scrollY p Hh [H0 H1].
  unfold Main.onScroll. cbv zeta.
  assert (G : JS.gt (scrollHeight - innerHeight) 0 = true)
    by (apply gt_true; exact Hh).
  rewrite G. rewrite jsdiv_nonzero by (intros Hz; lra). bind_simpl.
  eexists. split; [reflexivity|].
  cbn [Main.scrollProgress Main.camera Main.worldCrystal Main.positions
       Main.topGLBState].
  assert (R : 0 <= scrollY / (scrollHeight - innerHeight) <= 1).
  { split; [apply Qle_shift_div_l | apply Qle_shift_div_r]; lra. }
  split; [exact R|]. split; [apply pInterp_range; exact R|].
  split; [apply crystal_opacity_range; apply R|]. auto.
Qed.

Lemma page_scroll_progress_in_range_witness :
  exists p',
    Main.onScroll 1100 100 250 smallPage = Some p' /\
    0 <= Main.scrollProgress p' <= 1 /\
    0 <= Main.pInterp (Main.scrollProgress p') <= 1 /\
    0 <= 1 - Main.animProgress (Main.scrollProgress p') <= 1 /\
    Main.camera p' = Main.camera smallPage /\
    Main.worldCrystal p' = Main.worldCrystal smallPage /\
    Main.positions p' = Main.positions smallPage /\
    Main.topGLBState p' = Main.topGLBState smallPage.
Proof.
  apply (page_scroll_progress_in_range 1100 100 250 smallPage);
    try reflexivity; split; vm_compute; discriminate.
Defined.

(** ** The overlay module's fade *)

Lemma clamp01_mono a b : a <= b -> Loader.clamp01 a <= Loader.clamp01 b.
Proof.
  intros H. unfold Loader.clamp01.
  destruct (Qmax_cases 0 a) as [[? E1]|[? E1]],
           (Qmax_cases 0 b) as [[? E2]|[? E2]],
           (Qmin_cases 1 (Qmax 0 a)) as [[? E3]|[? E3]],
           (Qmin_cases 1 (Qmax 0 b)) as [[? E4]|[? E4]]; lra.
Qed.

Lemma smoothstep_0 : Loader.smoothstep 0 == 0.
Proof. reflexivity. Qed.

Lemma smoothstep_1 : Loader.smoothstep 1 == 1.
Proof. reflexivity. Qed.

(** The ramp value [t] of lines 106-109, before easing. *)
Lemma loader_targetOpacity_cases raw showAt fullAt :
  let sp := Loader.clamp01 raw in
  (sp <= showAt /\ Loader.targetOpacity raw showAt fullAt
                   = Some (Loader.smoothstep 0)) \/
  (showAt < sp /\ fullAt <= sp /\
   Loader.targetOpacity raw showAt fullAt = Some (Loader.smoothstep 1)) \/
  (showAt < sp /\ sp < fullAt /\
   Loader.targetOpacity raw showAt fullAt
   = Some (Loader.smoothstep
             ((sp - showAt) / Qmax 0.000001 (fullAt - showAt)))).
Proof.
  intros sp. unfold Loader.targetOpacity. cbv zeta. fold sp.
  destruct (JS.le sp showAt) eqn:E1;
    [apply le_true in E1 | apply le_false in E1].
  - left. split; [exact E1 | reflexivity].
  - destruct (JS.ge sp fullAt) eqn:E2;
      [apply ge_true in E2 | apply ge_false in E2].
    + right. left. repeat split; assumption || reflexivity.
    + right. right. split; [exact E1|]. split; [exact E2|].
      rewrite jsdiv_nonzero; [reflexivity|].
      intros Hz.
      destruct (Qmax_cases 0.000001 (fullAt - showAt)) as [[H E]|[H E]];
        rewrite E in Hz; lra.
Qed.

(** X15: in the overlay module, for any thresholds, the target opacity
    is in [[0,1]]; it is 0 while the clamped scroll value is at most
    [showAt] and 1 once it is above [showAt] and at least [fullAt].  When
    [fullAt <= showAt] it is a step from 0 to 1 at [showAt] and no quotient
    is taken. *)
Theorem loader_target_thresholds :
  forall raw showAt fullAt : Q,
    exists o,
      Loader.targetOpacity raw showAt fullAt = Some o /\
      0 <= o <= 1 /\
      (Loader.clamp01 raw <= showAt -> o == 0) /\
      (showAt < Loader.clamp01 raw -> fullAt <= Loader.clamp01 raw ->
       o == 1) /\
      (fullAt <= showAt ->
       (o == 0 \/ o == 1) /\
       Loader.targetOpacity raw showAt fullAt =
         Some (if JS.le (Loader.clamp01 raw) showAt
               then Loader.smoothstep 0 else Loader.smoothstep 1)).
Proof.
  intros raw showAt fullAt.
  destruct (loader_targetOpacity_cases raw showAt fullAt)
    as [[A E]|[(A & B & E)|(A & B & E)]]; rewrite E;
    eexists; (split; [reflexivity|]);
    (split; [apply smoothstep_range|]);
    (split; [|split]).
  - intros _. apply smoothstep_0.
  - intros H _. exfalso. lra.
  - intros _. split; [left; apply smoothstep_0|].
    apply le_true in A. now rewrite A.
  - intros H. exfalso. lra.
  - intros _ _. apply smoothstep_1.
  - intros _. split; [right; apply smoothstep_1|].
    apply le_false in A. now rewrite A.
  - intros H. exfalso. lra.
  - intros _ H. exfalso. lra.
  - intros H. exfalso. lra.
Qed.

(** One update of a loaded overlay, with its target written out. *)
Lemma loader_update_value delta raw options g obj :
  Loader.ready g = true -> Loader.object g = Some obj ->
  exists tgt,
    Loader.targetOpacity raw (default 0.01 (Loader.showAt options))
      (default 0.12 (Loader.fullAt options)) = Some tgt /\
    0 <= tgt <= 1 /\
    Loader.updateTopGLB delta raw options g =
      Some (Loader.mkTopGLB
              (Some (Loader.setOpacity obj
                       (Loader.opacity g + (tgt - Loader.opacity g)
                        * Qmin 1 (delta * default 8 (Loader.lerpSpeed options)))))
              ((fun played => played + delta) <$> Loader.mixer g)
              (Loader.ready g)
              (Loader.opacity g + (tgt - Loader.opacity g)
               * Qmin 1 (delta * default 8 (Loader.lerpSpeed options)))).
Proof.
  intros Hr Ho.
  destruct (loader_targetOpacity_range raw
              (default 0.01 (Loader.showAt options))
              (default 0.12 (Loader.fullAt options))) as (tgt & Ht & Hrange).
  exists tgt. split; [exact Ht|]. split; [exact Hrange|].
  unfold Loader.updateTopGLB. rewrite Hr, Ho. cbv zeta. rewrite Ht.
  reflexivity.
Qed.



(** ** Materials of the overlay object *)

Lemma setOpacity_lookup obj opacity i n :
  obj !! i = Some n ->
  Loader.setOpacity obj opacity !! i =
    Some (if Loader.isMesh n || Loader.isPoints n
          then Loader.mkNode (Loader.isMesh n) (Loader.isPoints n)
                 ((fun _ => Loader.mkMat true opacity true)
                    <$> Loader.material n)
          else n).
Proof.
  intros H. unfold Loader.setOpacity. rewrite list_lookup_fmap, H.
  reflexivity.
Qed.

Lemma setOpacity_lookup_inv obj opacity i n' :
  Loader.setOpacity obj opacity !! i = Some n' ->
  exists n, obj !! i = Some n /\
    n' = (if Loader.isMesh n || Loader.isPoints n
          then Loader.mkNode (Loader.isMesh n) (Loader.isPoints n)
                 ((fun _ => Loader.mkMat true opacity true)
                    <$> Loader.material n)
          else n).
Proof.
  unfold Loader.setOpacity. rewrite list_lookup_fmap.
  destruct (obj !! i) as [n|]; [|discriminate].
  intros [= <-]. eauto.
Qed.

(** X18: [setOpacity] writes the given opacity, [transparent] and
    [needsUpdate] into every material of every mesh or points node and
    touches nothing else: the nodes, their kinds and the number of their
    materials stay, nodes of other kinds are left as they are, and a second
    call overwrites the first. *)
Theorem setOpacity_writes_every_material :
  forall (obj : list Loader.Node) (a b : Q),
    length (Loader.setOpacity obj a) = length obj /\
    Loader.setOpacity (Loader.setOpacity obj a) b = Loader.setOpacity obj b /\
    (forall i n, obj !! i = Some n ->
       exists n', Loader.setOpacity obj a !! i = Some n' /\
         Loader.isMesh n' = Loader.isMesh n /\
         Loader.isPoints n' = Loader.isPoints n /\
         length (Loader.material n') = length (Loader.material n) /\
         (Loader.isMesh n || Loader.isPoints n = false -> n' = n) /\
         (Loader.isMesh n || Loader.isPoints n = true ->
          forall k m, Loader.material n' !! k = Some m ->
            m = Loader.mkMat true a true)).
Proof.
  intros obj a b. split; [|split].
  - unfold Loader.setOpacity. apply length_fmap.
  - unfold Loader.setOpacity. rewrite <- list_fmap_compose.
    apply list_fmap_ext. intros i n _. cbn [compose].
    destruct (Loader.isMesh n || Loader.isPoints n) eqn:E.
    + cbn [Loader.isMesh Loader.isPoints Loader.material]. rewrite E.
      rewrite <- list_fmap_compose. reflexivity.
    + rewrite E. reflexivity.
  - intros i n Hn. rewrite (setOpacity_lookup obj a i n Hn).
    eexists. split; [reflexivity|].
    destruct (Loader.isMesh n || Loader.isPoints n) eqn:E.
    + cbn [Loader.isMesh Loader.isPoints Loader.material].
      rewrite length_fmap. repeat split; try discriminate.
      intros _ k m Hm. rewrite list_lookup_fmap in Hm.
      destruct (Loader.material n !! k); [|discriminate].
      now injection Hm as <-.
    + repeat split. discriminate.
Qed.

(** ** The overlay module's state over a sequence of calls *)

Lemma load_in_sync playAnimations gltf g :
  Loader.loadTopGLB playAnimations gltf = Some g ->
  Loader.ready g = true /\ is_Some (Loader.object g) /\
  Loader.opacity g = 0 /\ materialsInSync g.
Proof.
  unfold Loader.loadTopGLB. cbv zeta.
  destruct (match Loader.scene gltf with
            | Some o => Some o
            | None => Loader.firstScene gltf
            end) as [o|]; [|discriminate].
  intros [= <-]. cbn [Loader.ready Loader.object Loader.opacity].
  split; [reflexivity|]. split; [eauto|]. split; [reflexivity|].
  intros obj i n k m [= <-] Hn Hkind Hm. cbn [Loader.opacity].
  rewrite list_lookup_fmap in Hn.
  destruct (o !! i) as [c|]; [|discriminate]. injection Hn as <-.
  destruct (Loader.isMesh c || Loader.isPoints c) eqn:E.
  - cbn [Loader.material] in Hm. rewrite list_lookup_fmap in Hm.
    destruct (Loader.material c !! k); [|discriminate].
    now injection Hm as <-.
  - congruence.
Qed.

Lemma update_in_sync delta raw options g g' :
  Loader.ready g = true -> is_Some (Loader.object g) ->
  Loader.updateTopGLB delta raw options g = Some g' ->
  Loader.ready g' = true /\ is_Some (Loader.object g') /\ materialsInSync g'.
Proof.
  intros Hr [obj Ho] Hu.
  destruct (loader_update_value delta raw options g obj Hr Ho)
    as (tgt & _ & _ & Hv).
  rewrite Hv in Hu. injection Hu as <-.
  cbn [Loader.ready Loader.object]. split; [exact Hr|]. split; [eauto|].
  intros obj' i n k m [= <-] Hn Hkind Hm. cbn [Loader.opacity].
  apply setOpacity_lookup_inv in Hn as (n0 & Hn0 & ->).
  destruct (Loader.isMesh n0 || Loader.isPoints n0) eqn:E.
  - cbn [Loader.material] in Hm. rewrite list_lookup_fmap in Hm.
    destruct (Loader.material n0 !! k); [|discriminate].
    now injection Hm as <-.
  - congruence.
Qed.

Lemma setMaterial_in_sync material g :
  materialsInSync g ->
  Loader.ready (Loader.setTopGLBMaterial material g) = Loader.ready g /\
  Loader.opacity (Loader.setTopGLBMaterial material g) = Loader.opacity g /\
  (is_Some (Loader.object g) ->
   is_Some (Loader.object (Loader.setTopGLBMaterial material g))) /\
  materialsInSync (Loader.setTopGLBMaterial material g).
Proof.
  intros Hs. unfold Loader.setTopGLBMaterial.
  destruct (Loader.object g) as [obj|] eqn:Ho; [destruct material as [mat|]|];
    try (rewrite <- Ho in *; repeat split; auto;
         intros ?; rewrite Ho; eauto).
  cbn [Loader.ready Loader.opacity Loader.object].
  repeat split; eauto.
  intros obj' i n k m [= <-] Hn Hkind Hm. cbn [Loader.opacity].
  rewrite list_lookup_fmap in Hn.
  destruct (obj !! i) as [n0|] eqn:Hn0; [|discriminate]. injection Hn as <-.
  destruct (Loader.isMesh n0) eqn:E.
  - cbn [Loader.material] in Hm. destruct k; [|discriminate].
    now injection Hm as <-.
  - apply (Hs obj i n0 k m Ho Hn0 Hkind Hm).
Qed.

(** X17: from the moment the overlay object is loaded, whatever sequence of
    [updateTopGLB] and [setTopGLBMaterial] calls follows (with elapsed times
    and speeds that are not negative), every call completes, the kept
    opacity stays in [[0,1]], and every material of every mesh or points
    node shows exactly the kept opacity. *)
Theorem loader_calls_keep_materials_in_sync :
  forall (playAnimations : option bool) (gltf : Loader.Gltf)
         (g0 : Loader.TopGLB) (calls : list LoaderCall),
    Loader.loadTopGLB playAnimations gltf = Some g0 ->
    Forall callOk calls ->
    exists g,
      runCalls calls g0 = Some g /\
      Loader.ready g = true /\ is_Some (Loader.object g) /\
      0 <= Loader.opacity g <= 1 /\
      materialsInSync g.
Proof.
  intros playAnimations gltf g0 calls Hload Hok.
  destruct (load_in_sync playAnimations gltf g0 Hload)
    as (Hr & Ho & Hop & Hs).
  assert (Hrange : 0 <= Loader.opacity g0 <= 1) by (rewrite Hop; split; lra).
  clear Hload Hop. revert g0 Hr Ho Hrange Hs.
  induction Hok as [|c calls Hc Hok IH]; intros g0 Hr Ho Hrange Hs.
  - exists g0. repeat split; auto; apply Hrange.
  - cbn [runCalls]. destruct c as [delta raw options|material].
    + destruct Hc as [Hd Hsp]. cbn [runCall].
      assert (Hk : 0 <= delta * default 8 (Loader.lerpSpeed options))
        by (apply Qmult_le_0_compat; assumption).
      destruct (loader_opacity_invariant delta raw options g0 Hrange Hk)
        as (g1 & Hu & Hrange1).
      destruct (update_in_sync delta raw options g0 g1 Hr Ho Hu)
        as (Hr1 & Ho1 & Hs1).
      rewrite Hu. bind_simpl. apply IH; assumption.
    + cbn [runCall]. bind_simpl.
      destruct (setMaterial_in_sync material g0 Hs) as (Er & Eo & Hobj & Hs1).
      apply IH; [congruence | auto | rewrite Eo; exact Hrange | exact Hs1].
Qed.

Lemma loader_calls_keep_materials_in_sync_witness :
  exists g,
    runCalls [CallUpdate 0.016 0.5 (Loader.mkOptions None None None);
              CallSetMaterial (Some (Loader.mkMat false 1 false));
              CallUpdate 0.016 0.6 (Loader.mkOptions None None (Some 4))]
             loadedTopGLB = Some g /\
    Loader.ready g = true /\ is_Some (Loader.object g) /\
    0 <= Loader.opacity g <= 1 /\
    materialsInSync g.
Proof.
  apply (loader_calls_keep_materials_in_sync None
           (Loader.mkGltf
              (Some [Loader.mkNode true false [Loader.mkMat true 0 false]])
              None 0)).
  - reflexivity.
  - repeat constructor; vm_compute; discriminate.
Defined.

(** ** The overlay module's layout, attachment and spin *)

(** The state the overlay module's layout leaves on a rectangle with
    area. *)
Lemma loader_layout_value rect size g h :
  Loader.enabled h = true -> Loader.headerEl h = true ->
  Loader.object g <> None ->
  0 < width rect -> 0 < height rect ->
  exists s,
    Loader.fitScale (Loader.fit h) (Loader.fitAmount h) rect size = Some s /\
    Loader.updateTopGLBHeaderCanvasLayout rect size g h =
      Some (Loader.mkHeader true (width rect, height rect)
              (Loader.mkOrtho (- width rect / 2) (width rect / 2)
                              (height rect / 2) (- height rect / 2))
              (Loader.mkStyle "block" (left rect) (top rect) (width rect)
                              (height rect))
              (V3 (Loader.offsetX h) (Loader.offsetY h) 0) s true
              (Loader.fit h) (Loader.fitAmount h) (Loader.offsetX h)
              (Loader.offsetY h) false).
Proof.
  intros He Hel Hobj Hw Hh.
  destruct (fitScale_cases (Loader.fit h) (Loader.fitAmount h) rect size)
    as (s & Hs & _).
  exists s. split; [exact Hs|].
  unfold Loader.updateTopGLBHeaderCanvasLayout.
  rewrite He, Hel. destruct (Loader.object g); [|contradiction].
  cbv zeta.
  assert (V : JS.gt (width rect) 0 && JS.gt (height rect) 0 = true)
    by (apply rect_visible_true; split; assumption).
  rewrite V, Hs. reflexivity.
Qed.

(** X19: on a header rectangle with area the overlay module's layout puts
    the canvas exactly on the rectangle, gives the orthographic camera a
    frustum centred on the origin that is as wide and as high as the
    rectangle, moves the pivot to the configured offsets and clears
    [needsLayout]; running it again with the same rectangle and bounding
    box changes nothing. *)
Theorem loader_layout_fits_rect_and_is_idempotent :
  forall (rect : DOMRect) (size : Vector3) (g : Loader.TopGLB)
         (h : Loader.HeaderCanvas),
    Loader.enabled h = true -> Loader.headerEl h = true ->
    Loader.object g <> None ->
    0 < width rect -> 0 < height rect ->
    exists h',
      Loader.updateTopGLBHeaderCanvasLayout rect size g h = Some h' /\
      Loader.canvas h' =
        Loader.mkStyle "block" (left rect) (top rect) (width rect)
                       (height rect) /\
      Loader.rendererSize h' = (width rect, height rect) /\
      Loader.camRight (Loader.camera h') - Loader.camLeft (Loader.camera h')
        == width rect /\
      Loader.camTop (Loader.camera h') - Loader.camBottom (Loader.camera h')
        == height rect /\
      Loader.camLeft (Loader.camera h') == - Loader.camRight (Loader.camera h') /\
      Loader.camBottom (Loader.camera h') == - Loader.camTop (Loader.camera h') /\
      Loader.pivotPosition h' = V3 (Loader.offsetX h) (Loader.offsetY h) 0 /\
      Loader.needsLayout h' = false /\
      Loader.updateTopGLBHeaderCanvasLayout rect size g h' = Some h'.
Proof.
  intros rect size g h He Hel Hobj Hw Hh.
  destruct (loader_layout_value rect size g h He Hel Hobj Hw Hh)
    as (s & Hs & Hv).
  eexists. split; [exact Hv|].
  cbn [Loader.canvas Loader.rendererSize Loader.camera Loader.camRight
       Loader.camLeft Loader.camTop Loader.camBottom Loader.pivotPosition
       Loader.needsLayout].
  split; [reflexivity|]. split; [reflexivity|].
  split; [field|]. split; [field|]. split; [field|]. split; [field|].
  split; [reflexivity|]. split; [reflexivity|].
  match goal with
  | |- Loader.updateTopGLBHeaderCanvasLayout _ _ _ ?h1 = _ =>
      destruct (loader_layout_value rect size g h1 eq_refl eq_refl Hobj Hw Hh)
        as (s' & Hs' & Hv')
  end.
  cbn [Loader.fit Loader.fitAmount Loader.offsetX Loader.offsetY] in Hs', Hv'.
  assert (s' = s) by congruence. subst s'. exact Hv'.
Qed.

Lemma loader_layout_fits_rect_and_is_idempotent_witness :
  exists h',
    Loader.updateTopGLBHeaderCanvasLayout (mkRect 10 20 800 100) (V3 2 4 1)
      loadedTopGLB enabledHeader = Some h' /\
    Loader.canvas h' =
      Loader.mkStyle "block" (left (mkRect 10 20 800 100))
        (top (mkRect 10 20 800 100)) (width (mkRect 10 20 800 100))
        (height (mkRect 10 20 800 100)) /\
    Loader.rendererSize h'
      = (width (mkRect 10 20 800 100), height (mkRect 10 20 800 100)) /\
    Loader.camRight (Loader.camera h') - Loader.camLeft (Loader.camera h')
      == width (mkRect 10 20 800 100) /\
    Loader.camTop (Loader.camera h') - Loader.camBottom (Loader.camera h')
      == height (mkRect 10 20 800 100) /\
    Loader.camLeft (Loader.camera h') == - Loader.camRight (Loader.camera h') /\
    Loader.camBottom (Loader.camera h') == - Loader.camTop (Loader.camera h') /\
    Loader.pivotPosition h'
      = V3 (Loader.offsetX enabledHeader) (Loader.offsetY enabledHeader) 0 /\
    Loader.needsLayout h' = false /\
    Loader.updateTopGLBHeaderCanvasLayout (mkRect 10 20 800 100) (V3 2 4 1)
      loadedTopGLB h' = Some h'.
Proof.
  apply (loader_layout_fits_rect_and_is_idempotent (mkRect 10 20 800 100)
           (V3 2 4 1) loadedTopGLB enabledHeader); try reflexivity.
  discriminate.
Defined.

(** X20: in the overlay module [topGLBUseHeaderCanvas] does nothing when
    the overlay object is not loaded or when the header element is not
    found; if the header canvas was not enabled before, it stays disabled
    and every later layout leaves the state as it is. *)
Theorem loader_attach_fails_closed :
  forall (el hasRenderer : bool) (options : Loader.UseOptions)
         (g : Loader.TopGLB) (h : Loader.HeaderCanvas)
         (rect : DOMRect) (size : Vector3),
    Loader.object g = None \/ el = false ->
    Loader.enabled h = false ->
    let h' := Loader.topGLBUseHeaderCanvas el hasRenderer options g h in
    h' = h /\
    Loader.updateTopGLBHeaderCanvasLayout rect size g h' = Some h.
Proof.
  intros el hasRenderer options g h rect size Hfail Hdis h'.
  assert (E : h' = h).
  { subst h'. unfold Loader.topGLBUseHeaderCanvas.
    destruct (Loader.object g); [|reflexivity].
    destruct Hfail as [?| ->]; [discriminate | reflexivity]. }
  split; [exact E|]. rewrite E.
  unfold Loader.updateTopGLBHeaderCanvasLayout. rewrite Hdis. reflexivity.
Qed.

Lemma loader_attach_fails_closed_witness :
  let h := Loader.mkHeader false (300, 150) (Loader.mkOrtho (-1) 1 1 (-1))
             (Loader.mkStyle "" 0 0 300 150) (V3 0 0 0) 1 false
             "height" 0.9 0 0 true in
  let h' := Loader.topGLBUseHeaderCanvas false false
              (Loader.mkUseOptions None None None None) loadedTopGLB h in
  h' = h /\
  Loader.updateTopGLBHeaderCanvasLayout (mkRect 0 0 800 100) (V3 2 4 1)
    loadedTopGLB h' = Some h.
Proof.
  apply (loader_attach_fails_closed false false
           (Loader.mkUseOptions None None None None) loadedTopGLB
           (Loader.mkHeader false (300, 150) (Loader.mkOrtho (-1) 1 1 (-1))
              (Loader.mkStyle "" 0 0 300 150) (V3 0 0 0) 1 false
              "height" 0.9 0 0 true)
           (mkRect 0 0 800 100) (V3 2 4 1)).
  - right. reflexivity.
  - reflexivity.
Defined.

(** X21: attaching the loaded overlay to a header that is found, with no
    options, and laying it out on a rectangle with area scales the pivot to
    [rect.height * 0.9 / size.y] when the object's bounding box has a
    positive height (the defaults: fit ['height'], fit amount 0.9) and
    places it at the origin; an empty [fit] counts as absent.  The canvas
    is displayed on the rectangle. *)
Theorem loader_attach_defaults_then_layout :
  forall (hasRenderer : bool) (emptyFit : bool) (g : Loader.TopGLB)
         (h : Loader.HeaderCanvas) (rect : DOMRect) (size : Vector3),
    Loader.object g <> None ->
    0 < width rect -> 0 < height rect -> 0 < vy size ->
    let options :=
      Loader.mkUseOptions (if emptyFit then Some ""%string else None)
                          None None None in
    let h1 := Loader.topGLBUseHeaderCanvas true hasRenderer options g h in
    Loader.enabled h1 = true /\ Loader.needsLayout h1 = true /\
    Loader.fit h1 = "height"%string /\ Loader.fitAmount h1 = 0.9 /\
    exists h2,
      Loader.updateTopGLBHeaderCanvasLayout rect size g h1 = Some h2 /\
      Loader.pivotScale h2 = height rect * 0.9 / vy size /\
      Loader.pivotPosition h2 = V3 0 0 0 /\
      Loader.display (Loader.canvas h2) = "block"%string /\
      Loader.needsLayout h2 = false.
Proof.
  intros hasRenderer emptyFit g h rect size Hobj Hw Hh Hy options h1.
  assert (E : exists r c cv pp ps,
             h1 = Loader.mkHeader true r c cv pp ps true "height" 0.9 0 0 true).
  { subst h1 options. unfold Loader.topGLBUseHeaderCanvas.
    destruct (Loader.object g); [|contradiction]. cbn [negb].
    destruct emptyFit; cbn; do 5 eexists; reflexivity. }
  destruct E as (r & c & cv & pp & ps & E). rewrite E.
  cbn [Loader.enabled Loader.needsLayout Loader.fit Loader.fitAmount].
  repeat (split; [reflexivity|]).
  destruct (loader_layout_value rect size g
              (Loader.mkHeader true r c cv pp ps true "height" 0.9 0 0 true)
              eq_refl eq_refl Hobj Hw Hh) as (s & Hs & Hv).
  cbn [Loader.fit Loader.fitAmount Loader.offsetX Loader.offsetY] in Hs, Hv.
  destruct (fitScale_cases "height" 0.9 rect size) as (s' & Hs' & C1 & _).
  assert (s' = s) by congruence. subst s'.
  rewrite (C1 eq_refl Hy) in Hv.
  eexists. split; [exact Hv|]. repeat split; reflexivity.
Qed.

Lemma loader_attach_defaults_then_layout_witness :
  let options := Loader.mkUseOptions (if true then Some ""%string else None)
                                     None None None in
  let h1 := Loader.topGLBUseHeaderCanvas true false options loadedTopGLB
              enabledHeader in
  Loader.enabled h1 = true /\ Loader.needsLayout h1 = true /\
  Loader.fit h1 = "height"%string /\ Loader.fitAmount h1 = 0.9 /\
  exists h2,
    Loader.updateTopGLBHeaderCanvasLayout (mkRect 0 0 800 100) (V3 2 4 1)
      loadedTopGLB h1 = Some h2 /\
    Loader.pivotScale h2 = height (mkRect 0 0 800 100) * 0.9 / vy (V3 2 4 1) /\
    Loader.pivotPosition h2 = V3 0 0 0 /\
    Loader.display (Loader.canvas h2) = "block"%string /\
    Loader.needsLayout h2 = false.
Proof.
  apply (loader_attach_defaults_then_layout false true loadedTopGLB
           enabledHeader (mkRect 0 0 800 100) (V3 2 4 1));
    try reflexivity.
  discriminate.
Defined.

Lemma spin_step dt speed h r :
  Loader.enabled h = true ->
  Loader.renderTopGLBHeaderCanvas dt speed h r == r + dt * speed.
Proof.
  intros He. unfold Loader.renderTopGLBHeaderCanvas. rewrite He. cbn [negb].
  destruct (Qeq_bool speed 0) eqn:E; cbn [negb]; [|reflexivity].
  apply Qeq_bool_eq in E. rewrite E. ring.
Qed.

(** X22: the spin of the header overlay depends only on the time that has
    passed, not on how it is cut into frames: after any sequence of frames
    the pivot has turned by [speed] times the sum of their elapsed times.
    With speed 0, or while the header canvas is not enabled, it does not
    turn at all. *)
Theorem header_spin_accumulates :
  forall (dts : list Q) (speed : Q) (h : Loader.HeaderCanvas) (r : Q),
    (Loader.enabled h = true ->
     spinFrames dts speed h r == r + speed * foldr Qplus 0 dts) /\
    (Loader.enabled h = false -> spinFrames dts speed h r = r) /\
    (speed = 0 -> spinFrames dts speed h r = r).
Proof.
  intros dts speed h r. split; [|split].
  - intros He. revert r. induction dts as [|dt dts IH]; intros r.
    + unfold spinFrames. cbn [foldl foldr]. ring.
    + unfold spinFrames in *. cbn [foldl foldr]. rewrite IH.
      rewrite (spin_step dt speed h r He). ring.
  - intros He. revert r. induction dts as [|dt dts IH]; intros r.
    + reflexivity.
    + unfold spinFrames in *. cbn [foldl]. rewrite IH.
      unfold Loader.renderTopGLBHeaderCanvas. now rewrite He.
  - intros ->. revert r. induction dts as [|dt dts IH]; intros r.
    + reflexivity.
    + unfold spinFrames in *. cbn [foldl]. rewrite IH.
      unfold Loader.renderTopGLBHeaderCanvas.
      destruct (Loader.enabled h); reflexivity.
Qed.

(** X23: with the overlay module's own scroll listener as the source and
    the default thresholds, the target opacity is 0 while the page is
    scrolled by at most 1% of its extent and 1 once it is scrolled by 12% or
    more; the value the listener stores is already clamped, so the clamp in
    [updateTopGLB] leaves it as it is. *)
Theorem loader_scroll_to_target :
  forall docScrollTop bodyScrollTop scrollHeight clientHeight : Q,
    let scrollTop :=
      Loader.or_else docScrollTop (Loader.or_else bodyScrollTop 0) in
    let extent := Loader.scrollMax scrollHeight clientHeight in
    exists q tgt,
      Loader.onScroll docScrollTop bodyScrollTop scrollHeight clientHeight
        = Some q /\
      Loader.targetOpacity q 0.01 0.12 = Some tgt /\
      Loader.clamp01 q == q /\
      (scrollTop <= 0.01 * extent -> tgt == 0) /\
      (0.12 * extent <= scrollTop -> tgt == 1).
Proof.
  intros docScrollTop bodyScrollTop scrollHeight clientHeight scrollTop extent.
  pose proof (scrollMax_ge_1 scrollHeight clientHeight) as Hmax.
  fold extent in Hmax.
  unfold Loader.onScroll. cbv zeta. fold scrollTop. fold extent.
  rewrite jsdiv_nonzero by (intros Hz; lra). bind_simpl.
  set (q := Loader.clamp01 (scrollTop / extent)).
  assert (Hq : 0 <= q <= 1) by apply clamp01_range.
  assert (Eq : Loader.clamp01 q == q) by (apply clamp01_id; exact Hq).
  assert (Hlow : scrollTop <= 0.01 * extent -> q <= 0.01).
  { intros H. subst q.
    assert (A : scrollTop / extent <= 0.01)
      by (apply Qle_shift_div_r; lra).
    pose proof (clamp01_mono _ _ A) as M.
    rewrite (clamp01_id 0.01) in M by (split; lra). exact M. }
  assert (Hhigh : 0.12 * extent <= scrollTop -> 0.12 <= q).
  { intros H. subst q.
    assert (A : 0.12 <= scrollTop / extent)
      by (apply Qle_shift_div_l; lra).
    pose proof (clamp01_mono _ _ A) as M.
    rewrite (clamp01_id 0.12) in M by (split; lra). exact M. }
  exists q.
  destruct (loader_targetOpacity_cases q 0.01 0.12)
    as [[A ->]|[(A & B & ->)|(A & B & ->)]];
    rewrite Eq in A; try rewrite Eq in B;
    eexists; (split; [reflexivity|]); (split; [reflexivity|]);
    (split; [exact Eq|]); split; intros H;
    rewrite ?smoothstep_0, ?smoothstep_1; try reflexivity;
    try (apply Hlow in H; lra); try (apply Hhigh in H; lra).
Qed.
